(** * Search bars of the search-react plugin

    A shallow embedding of
    [plugins/search-react/src/components/SearchBar/SearchBar.tsx]:
    [SearchBarBase], the hook [useSearchBarState], [SearchBarInput] and the
    text input of [SearchBarAutocomplete].

    A component is a transition system.  Its state holds what React keeps
    between renders (the [useState] cell, the dependencies seen by the last
    run of each effect, the timer handle of [useDebounce]); an event is what
    the user, the parent or the clock does; a transition returns the next
    state together with the calls made to the callbacks handed to the
    component, in the order they are made.  A callback that the caller may
    leave out is a boolean in the props: [true] when it was supplied. *)

From Stdlib Require Import String List NArith Bool Lia.
Import ListNotations.

Local Open Scope N_scope.
Local Open Scope list_scope.

(** ** JavaScript values

    TypeScript types are erased at run time: a [value] prop that was left
    out is [undefined], also where the source casts it [as string]. *)

Module Js.

Inductive value : Type :=
| undefined
| str (s : string).

(** [a === b] on these values ([Object.is] agrees with it on them). *)
Definition strict_eqb (a b : value) : bool :=
  match a, b with
  | undefined, undefined => true
  | str x, str y => String.eqb x y
  | _, _ => false
  end.

(** [if (v)]: [undefined] and [''] are falsy. *)
Definition truthy (v : value) : bool :=
  match v with
  | undefined => false
  | str s => negb (String.eqb s "")
  end.

(** [String(v)]. *)
Definition String (v : value) : string :=
  match v with
  | undefined => "undefined"
  | str s => s
  end.

(** A destructuring default, [{ value: x = d }]: used when the prop is
    [undefined]. *)
Definition default_to (d v : value) : value :=
  match v with
  | undefined => d
  | str _ => v
  end.

(** [a || d] for an optional string [a]. *)
Definition or_else (a : option string) (d : string) : string :=
  match a with
  | Some s => if String.eqb s "" then d else s
  | None => d
  end.

End Js.

(** ** Props objects and elements

    A props object is a list of named attributes, the first entry of a name
    being the one that counts.  Only what the components of this file put
    into such objects, and read from them, is told apart. *)

Module Jsx.

Inductive Element : Type :=
| QueryIcon                  (* the disabled "Query" button, at the start *)
| ClearIcon                  (* the "Clear" button; its click is [handleClear] *)
| Progress                   (* [<CircularProgress ... />] *)
| Other (name : string).     (* an element of the caller *)

Inductive Handler : Type :=
| HandleChange               (* [handleChange] of the component *)
| HandleKeyDown              (* [handleKeyDown] of the component *)
| Of (name : string).        (* a function of the caller *)

#[warnings="-register-all"] Inductive Attr : Type :=
| Value (v : Js.value)
| Flag (b : bool)
| Node (e : Element)
| Fn (h : Handler)
| Object (o : list (string * Attr)).

Definition Obj : Type := list (string * Attr).

(** [o[k]] *)
Fixpoint get (k : string) (o : Obj) : option Attr :=
  match o with
  | [] => None
  | (k', a) :: o' => if String.eqb k k' then Some a else get k o'
  end.

(** [{ ...a, ...b }]: an entry of [b] replaces the one of [a]. *)
Definition spread (a b : Obj) : Obj := b ++ a.

(** What a rest pattern keeps after the names [ks] were taken out. *)
Definition omit (ks : list string) (o : Obj) : Obj :=
  filter (fun e => negb (existsb (String.eqb (fst e)) ks)) o.

End Jsx.

(** ** Calls made by the components *)

Inductive Call : Type :=
| OnChange (v : Js.value)      (* the caller's [onChange] *)
| OnKeyDown (key : string)     (* the caller's [onKeyDown] *)
| OnSubmit                     (* the caller's [onSubmit] *)
| OnClear                      (* the caller's [onClear] *)
| SetTerm (v : Js.value).      (* [setTerm] of the shared search context *)

(** ** Events

    What the user and the clock do to the input that [SearchBarBase]
    renders.  The three components share these events; each adds the
    renders of its parent. *)

Inductive Ui : Type :=
| Change (text : string)       (* a change event of the input *)
| KeyDown (key : string)       (* a key event of the input *)
| ClickClear                   (* a click on the "Clear" button *)
| Elapse (ms : N).             (* [ms] milliseconds pass with no event *)

(** ** SearchBarBase *)

Module SearchBarBase.

(** The props that the body of the component reads.  [onChange] is
    required, so it has no field; [value] changes between renders and is
    an argument of [mount] and [render]; [appTitle] is what
    [configApi.getOptionalString('app.title')] returns. *)
Record Props : Type := {
  debounceTime : option N;
  clearButton : option bool;
  onKeyDown : bool;
  onSubmit : bool;
  onClear : bool;
  appTitle : option string
}.

Record State : Type := {
  value : Js.value;          (* const [value, setValue] = useState(...) *)
  defaultValue : Js.value;   (* the [value] prop of the last render *)
  timeout : option N;        (* deadline of the pending timer, in ms *)
  now : N                    (* the clock, in ms *)
}.

Inductive Event : Type :=
| Input (u : Ui)
| Render (v : Js.value).     (* the parent renders with this [value] *)

(** [debounceTime = 200] *)
Definition ms (p : Props) : N :=
  match debounceTime p with
  | Some d => d
  | None => 200
  end.

(** [clearButton = true] *)
Definition hasClearButton (p : Props) : bool :=
  match clearButton p with
  | Some b => b
  | None => true
  end.

(** Modelled from the spec: the imported hook [useDebounce] (package
    react-use) is not among the sources.  [useDebounce(fn, ms, deps)] owns
    one cancellable timer handle; its effect on [deps] cancels the pending
    timer and arms a new one that is due [ms] later. *)
Definition reset (p : Props) (s : State) : State :=
  {| value := value s;
     defaultValue := defaultValue s;
     timeout := Some (now s + ms p);
     now := now s |}.

(** [setValue(v)]: React keeps the state and skips the render when the new
    value is the old one; otherwise the component renders again and the
    effect of [useDebounce], whose dependency is [[value]], runs. *)
Definition setValue (p : Props) (v : Js.value) (s : State) : State :=
  if Js.strict_eqb (value s) v then s
  else reset p {| value := v;
                  defaultValue := defaultValue s;
                  timeout := timeout s;
                  now := now s |}.

(** The effect on [[defaultValue]]:
    [setValue(prevValue => prevValue !== defaultValue ? defaultValue : prevValue)]. *)
Definition syncDefaultValue (p : Props) (s : State) : State :=
  let prevValue := value s in
  setValue p
    (if negb (Js.strict_eqb prevValue (defaultValue s))
     then defaultValue s else prevValue) s.

(** First render with [value] prop [v] at time [t], then the effects of
    the mount in the order of the hooks. *)
Definition mount (p : Props) (v : Js.value) (t : N) : State :=
  reset p
    (syncDefaultValue p
       {| value := v; defaultValue := v; timeout := None; now := t |}).

(** A later render with [value] prop [v]: the effect on [[defaultValue]]
    runs when the prop is not the one of the last render. *)
Definition render (p : Props) (v : Js.value) (s : State) : State :=
  if Js.strict_eqb (defaultValue s) v then s
  else syncDefaultValue p
         {| value := value s;
            defaultValue := v;
            timeout := timeout s;
            now := now s |}.

Definition handleChange (p : Props) (text : string) (s : State) : State :=
  setValue p (Js.str text) s.

Definition handleKeyDown (p : Props) (key : string) : list Call :=
  (if onKeyDown p then [OnKeyDown key] else [])
    ++ (if onSubmit p && String.eqb key "Enter" then [OnSubmit] else []).

Definition handleClear : list Call := [OnChange (Js.str "")].

(** Modelled from the spec: the timer of [useDebounce] is not among the
    sources.  When [dt] milliseconds pass, a pending timer that has become
    due fires, once, and the handle is free again.  What it runs is the
    callback of the source, [() => onChange(value)], with the [value] of
    the last render. *)
Definition elapse (dt : N) (s : State) : State * list Call :=
  let t := now s + dt in
  match timeout s with
  | Some due =>
      if due <=? t
      then ({| value := value s; defaultValue := defaultValue s;
               timeout := None; now := t |},
            [OnChange (value s)])
      else ({| value := value s; defaultValue := defaultValue s;
               timeout := Some due; now := t |}, [])
  | None =>
      ({| value := value s; defaultValue := defaultValue s;
          timeout := None; now := t |}, [])
  end.

(** The "Clear" button is the end adornment only when [clearButton] is
    set; without it there is nothing to click. *)
Definition interact (p : Props) (s : State) (u : Ui) : State * list Call :=
  match u with
  | Change text => (handleChange p text s, [])
  | KeyDown key => (s, handleKeyDown p key)
  | ClickClear => (s, if hasClearButton p then handleClear else [])
  | Elapse dt => elapse dt s
  end.

Definition step (p : Props) (s : State) (e : Event) : State * list Call :=
  match e with
  | Input u => interact p s u
  | Render v => (render p v s, [])
  end.

Fixpoint run (p : Props) (s : State) (es : list Event) : State * list Call :=
  match es with
  | [] => (s, [])
  | e :: es' =>
      let (s1, out1) := step p s e in
      let (s2, out2) := run p s1 es' in
      (s2, out1 ++ out2)
  end.

(** [`Search in ${configApi.getOptionalString('app.title') || 'Backstage'}`] *)
Definition placeholder (p : Props) : string :=
  String.append "Search in " (Js.or_else (appTitle p) "Backstage").

(** The props of [<SearchBarBase onChange={...} />]: every optional prop
    left out, no [app.title] in the configuration. *)
Definition bare : Props :=
  {| debounceTime := None;
     clearButton := None;
     onKeyDown := false;
     onSubmit := false;
     onClear := false;
     appTitle := None |}.

(** The props of [<SearchBarBase onChange={...} onClear={...} />]. *)
Definition with_onClear : Props :=
  {| debounceTime := None;
     clearButton := None;
     onKeyDown := false;
     onSubmit := false;
     onClear := true;
     appTitle := None |}.

(** The props of a [SearchBarBase] in an app whose title is "Acme". *)
Definition in_acme : Props :=
  {| debounceTime := None;
     clearButton := None;
     onKeyDown := false;
     onSubmit := false;
     onClear := false;
     appTitle := Some "Acme"%string |}.

(** The names that the parameter list of [SearchBarBase] takes out of its
    props; [...props] is what is left of them. *)
Definition destructured : list string :=
  ["onChange"; "onKeyDown"; "onSubmit"; "debounceTime"; "clearButton";
   "fullWidth"; "value"; "inputProps"; "endAdornment"]%string.

(** [clearButton ? endAdornment : defaultEndAdornment] *)
Definition endAdornment (p : Props) (defaultEndAdornment : Jsx.Attr) : Jsx.Attr :=
  if hasClearButton p then Jsx.Node Jsx.ClearIcon else defaultEndAdornment.

(** [{ 'aria-label': 'Search', ...defaultInputProps }], with
    [inputProps: defaultInputProps = {}]. *)
Definition inputProps (defaultInputProps : option Jsx.Obj) : Jsx.Obj :=
  Jsx.spread
    [("aria-label"%string, Jsx.Value (Js.str "Search"))]
    (match defaultInputProps with Some o => o | None => [] end).

(** The props of the [<InputBase ... />] that is rendered.  [all] is the
    props object of the caller; the names in [destructured] are read through
    [p], [s] and the arguments before it, with [fullWidth = true]. *)
Definition inputBase (p : Props) (s : State) (fullWidth : option bool)
  (defaultInputProps : option Jsx.Obj) (defaultEndAdornment : Jsx.Attr)
  (all : Jsx.Obj) : Jsx.Obj :=
  Jsx.spread
    [("data-testid"%string, Jsx.Value (Js.str "search-bar-next"));
     ("value"%string, Jsx.Value (value s));
     ("placeholder"%string, Jsx.Value (Js.str (placeholder p)));
     ("startAdornment"%string, Jsx.Node Jsx.QueryIcon);
     ("endAdornment"%string, endAdornment p defaultEndAdornment);
     ("inputProps"%string, Jsx.Object (inputProps defaultInputProps));
     ("fullWidth"%string,
      Jsx.Flag (match fullWidth with Some b => b | None => true end));
     ("onChange"%string, Jsx.Fn Jsx.HandleChange);
     ("onKeyDown"%string, Jsx.Fn Jsx.HandleKeyDown)]
    (Jsx.omit destructured all).

End SearchBarBase.

(** ** useSearchBarState and SearchBarInput *)

Module SearchBarInput.

(** [{ value: defaultValue = '', onChange, ...rest }]; [value] is an
    argument of [mount] and [render]. *)
Record Props : Type := {
  onChange : bool;
  rest : SearchBarBase.Props
}.

Record State : Type := {
  term : Js.value;              (* [term] of the shared search context *)
  defaultValue : Js.value;      (* [defaultValue] of the last render *)
  base : SearchBarBase.State    (* the [SearchBarBase] it renders *)
}.

Inductive Event : Type :=
| Input (u : Ui)
| Render (v : Js.value)         (* the parent renders with this [value] *)
| Context (v : Js.value).       (* another user of the context sets [term] *)

(** [setTerm(v)] of the context.  [useSearchBarState] returns the new
    [term], which is the [value] prop of [SearchBarBase]. *)
Definition setTerm (p : Props) (v : Js.value) (st : State) : State :=
  {| term := v;
     defaultValue := defaultValue st;
     base := SearchBarBase.render (rest p) v (base st) |}.

(** The effect of [useSearchBarState] on [[defaultValue, setValue]]:
    [if (defaultValue) { setValue(String(defaultValue)); }]. *)
Definition useSearchBarState (p : Props) (st : State) : State * list Call :=
  if Js.truthy (defaultValue st)
  then (setTerm p (Js.str (Js.String (defaultValue st))) st,
        [SetTerm (Js.str (Js.String (defaultValue st)))])
  else (st, []).

Definition handleChange (p : Props) (newValue : Js.value) (st : State)
  : State * list Call :=
  if onChange p
  then (st, [OnChange newValue])
  else (setTerm p newValue st, [SetTerm newValue]).

(** A call made by [SearchBarBase]: its [onChange] is [handleChange], the
    other callbacks are the caller's, handed down in [rest]. *)
Definition deliver (p : Props) (st : State) (c : Call) : State * list Call :=
  match c with
  | OnChange v => handleChange p v st
  | _ => (st, [c])
  end.

Fixpoint deliverAll (p : Props) (st : State) (cs : list Call)
  : State * list Call :=
  match cs with
  | [] => (st, [])
  | c :: cs' =>
      let (st1, out1) := deliver p st c in
      let (st2, out2) := deliverAll p st1 cs' in
      (st2, out1 ++ out2)
  end.

Definition interact (p : Props) (st : State) (u : Ui) : State * list Call :=
  let (b, cs) := SearchBarBase.interact (rest p) (base st) u in
  deliverAll p {| term := term st; defaultValue := defaultValue st; base := b |} cs.

(** First render with [value] prop [v] under a context whose term is
    [term0]; the effects of [SearchBarBase] run before the one of
    [useSearchBarState]. *)
Definition mount (p : Props) (v term0 : Js.value) (t : N) : State * list Call :=
  useSearchBarState p
    {| term := term0;
       defaultValue := Js.default_to (Js.str "") v;
       base := SearchBarBase.mount (rest p) term0 t |}.

Definition render (p : Props) (v : Js.value) (st : State) : State * list Call :=
  let d := Js.default_to (Js.str "") v in
  if Js.strict_eqb (defaultValue st) d then (st, [])
  else useSearchBarState p
         {| term := term st; defaultValue := d; base := base st |}.

Definition step (p : Props) (st : State) (e : Event) : State * list Call :=
  match e with
  | Input u => interact p st u
  | Render v => render p v st
  | Context v => (setTerm p v st, [])
  end.

Fixpoint run (p : Props) (st : State) (es : list Event) : State * list Call :=
  match es with
  | [] => (st, [])
  | e :: es' =>
      let (st1, out1) := step p st e in
      let (st2, out2) := run p st1 es' in
      (st2, out1 ++ out2)
  end.

(** The props of [<SearchBarInput />] and of
    [<SearchBarInput onChange={...} />]. *)
Definition bare : Props :=
  {| onChange := false; rest := SearchBarBase.bare |}.

Definition with_onChange : Props :=
  {| onChange := true; rest := SearchBarBase.bare |}.

End SearchBarInput.

(** ** SearchBarAutocomplete: the text input *)

Module SearchBarAutocomplete.

(** Of [inputProps]: [{ value: defaultInputValue, onChange: onInputChange,
    ...restInput }]; [value] is an argument of [mount] and [render]. *)
Record Props : Type := {
  onInputChange : bool;
  restInput : SearchBarBase.Props
}.

Record State : Type := {
  defaultInputValue : Js.value;   (* [defaultInputValue] of the last render *)
  input : SearchBarInput.State    (* the [SearchBarInput] of [renderInput] *)
}.

Inductive Event : Type :=
| Input (u : Ui)
| Render (v : Js.value)     (* the parent renders with [inputProps.value] *)
| Context (v : Js.value).   (* another user of the context sets [term] *)

(** [<SearchBarInput {...restInput} value={inputValue}
    onChange={handleInputChange} />] *)
Definition inputProps (p : Props) : SearchBarInput.Props :=
  {| SearchBarInput.onChange := true; SearchBarInput.rest := restInput p |}.

Definition term (st : State) : Js.value := SearchBarInput.term (input st).

(** [setTerm(v)] of the context, which both components read: the new
    [term] is [inputValue], the [value] prop of the [SearchBarInput]. *)
Definition setTerm (p : Props) (v : Js.value) (st : State) : State * list Call :=
  let (i, out) :=
    SearchBarInput.render (inputProps p) v
      (SearchBarInput.setTerm (inputProps p) v (input st)) in
  ({| defaultInputValue := defaultInputValue st; input := i |}, out).

(** The effect of [useSearchBarState(defaultInputValue)]. *)
Definition useSearchBarState (p : Props) (st : State) : State * list Call :=
  if Js.truthy (defaultInputValue st)
  then let w := Js.str (Js.String (defaultInputValue st)) in
       let (st1, out) := setTerm p w st in
       (st1, SetTerm w :: out)
  else (st, []).

Definition handleInputChange (p : Props) (newValue : Js.value) (st : State)
  : State * list Call :=
  if onInputChange p
  then (st, [OnChange newValue])
  else let (st1, out) := setTerm p newValue st in
       (st1, SetTerm newValue :: out).

Definition deliver (p : Props) (st : State) (c : Call) : State * list Call :=
  match c with
  | OnChange v => handleInputChange p v st
  | _ => (st, [c])
  end.

Fixpoint deliverAll (p : Props) (st : State) (cs : list Call)
  : State * list Call :=
  match cs with
  | [] => (st, [])
  | c :: cs' =>
      let (st1, out1) := deliver p st c in
      let (st2, out2) := deliverAll p st1 cs' in
      (st2, out1 ++ out2)
  end.

Definition interact (p : Props) (st : State) (u : Ui) : State * list Call :=
  let (i, cs) := SearchBarInput.interact (inputProps p) (input st) u in
  deliverAll p {| defaultInputValue := defaultInputValue st; input := i |} cs.

(** First render with [inputProps.value] [v] under a context whose term
    is [term0]; the effects of the [SearchBarInput] run first. *)
Definition mount (p : Props) (v term0 : Js.value) (t : N) : State * list Call :=
  let (i, out1) := SearchBarInput.mount (inputProps p) term0 term0 t in
  let (st, out2) :=
    useSearchBarState p {| defaultInputValue := v; input := i |} in
  (st, out1 ++ out2).

Definition render (p : Props) (v : Js.value) (st : State) : State * list Call :=
  if Js.strict_eqb (defaultInputValue st) v then (st, [])
  else useSearchBarState p {| defaultInputValue := v; input := input st |}.

Definition step (p : Props) (st : State) (e : Event) : State * list Call :=
  match e with
  | Input u => interact p st u
  | Render v => render p v st
  | Context v => setTerm p v st
  end.

Fixpoint run (p : Props) (st : State) (es : list Event) : State * list Call :=
  match es with
  | [] => (st, [])
  | e :: es' =>
      let (st1, out1) := step p st e in
      let (st2, out2) := run p st1 es' in
      (st2, out1 ++ out2)
  end.

(** The props of [<SearchBarAutocomplete />] and of
    [<SearchBarAutocomplete inputProps={{ onChange: ... }} />]. *)
Definition bare : Props :=
  {| onInputChange := false; restInput := SearchBarBase.bare |}.

Definition with_onChange : Props :=
  {| onInputChange := true; restInput := SearchBarBase.bare |}.

(** [loading ? <CircularProgress ... /> : inputEndAdornment], the
    [endAdornment] prop of the [SearchBarInput]; [SearchBarInput] hands it
    on in [...rest], so it is the [defaultEndAdornment] of [SearchBarBase]. *)
Definition endAdornment (loading : option bool) (inputEndAdornment : Jsx.Attr)
  : Jsx.Attr :=
  match loading with
  | Some true => Jsx.Node Jsx.Progress
  | _ => inputEndAdornment
  end.

(** The end adornment that the input shows. *)
Definition shownEndAdornment (p : Props) (loading : option bool)
  (inputEndAdornment : Jsx.Attr) : Jsx.Attr :=
  SearchBarBase.endAdornment (restInput p) (endAdornment loading inputEndAdornment).

End SearchBarAutocomplete.

(** ** Typing

    A keystroke is a change event some time after the event before it;
    [text] is what the input holds after the keystroke. *)

Record Keystroke : Type := {
  after : N;
  text : string
}.

Definition typing (ks : list Keystroke) : list SearchBarBase.Event :=
  flat_map
    (fun k => [SearchBarBase.Input (Elapse (after k));
               SearchBarBase.Input (Change (text k))])
    ks.

(** The example of the specification: "c", "ca", "cat" typed within 50 ms. *)
Definition cat : list Keystroke :=
  [ {| after := 10; text := "c" |}; {| after := 15; text := "ca" |} ].

Definition cat_last : Keystroke := {| after := 20; text := "cat" |}.

(** What becomes of a call of [SearchBarBase] when the caller of
    [SearchBarInput] gave no [onChange]. *)
Definition toContext (c : Call) : Call :=
  match c with
  | OnChange v => SetTerm v
  | _ => c
  end.

(** The [value] prop of the last render of [SearchBarBase] is the term. *)
Definition linked (st : SearchBarInput.State) : Prop :=
  SearchBarBase.defaultValue (SearchBarInput.base st) = SearchBarInput.term st.

(** ** Bursts of typing *)

(** Each keystroke leaves a text that is not the one before it; [shown] is
    the local value before the first. *)
Fixpoint edits (shown : Js.value) (ks : list Keystroke) : bool :=
  match ks with
  | [] => true
  | k :: ks' =>
      negb (Js.strict_eqb shown (Js.str (text k)))
      && edits (Js.str (text k)) ks'
  end.

(** Each keystroke comes before the debounce time is over. *)
Definition brisk (p : SearchBarBase.Props) (ks : list Keystroke) : bool :=
  forallb (fun k => after k <? SearchBarBase.ms p) ks.

(** No timer is due before the debounce time is over. *)
Definition calm (p : SearchBarBase.Props) (s : SearchBarBase.State) : bool :=
  match SearchBarBase.timeout s with
  | Some due => SearchBarBase.now s + SearchBarBase.ms p <=? due
  | None => true
  end.

(** The timer, if one is pending, is due within the debounce time. *)
Definition timely (p : SearchBarBase.Props) (s : SearchBarBase.State) : Prop :=
  forall due,
    SearchBarBase.timeout s = Some due ->
    due <= SearchBarBase.now s + SearchBarBase.ms p.

(** ** Strings *)

Definition is_string (v : Js.value) : bool :=
  match v with
  | Js.undefined => false
  | Js.str _ => true
  end.

(** The value that a call hands over is a string. *)
Definition hands_a_string (c : Call) : bool :=
  match c with
  | OnChange v => is_string v
  | SetTerm v => is_string v
  | _ => true
  end.

(** The other users of the context set the term to strings only. *)
Definition contexts_are_strings (es : list SearchBarInput.Event) : bool :=
  forallb
    (fun e => match e with SearchBarInput.Context v => is_string v | _ => true end)
    es.

(** An idle [SearchBarInput] shows the term. *)
Definition settled (st : SearchBarInput.State) : Prop :=
  SearchBarBase.timeout (SearchBarInput.base st) = None ->
  SearchBarBase.value (SearchBarInput.base st) = SearchBarInput.term st.

(** The term and the local value are strings. *)
Definition stringy (st : SearchBarInput.State) : Prop :=
  is_string (SearchBarInput.term st) = true
  /\ is_string (SearchBarBase.value (SearchBarInput.base st)) = true.

(** * Properties *)

(** ** JavaScript values *)

Lemma strict_eqb_eq (a b : Js.value) : Js.strict_eqb a b = true <-> a = b.
Proof.
  destruct a as [|x], b as [|y]; simpl; split; intro H;
    try reflexivity; try discriminate.
  - apply String.eqb_eq in H. now subst.
  - injection H as ->. apply String.eqb_refl.
Qed.

Lemma strict_eqb_neq (a b : Js.value) : Js.strict_eqb a b = false <-> a <> b.
Proof.
  split.
  - intros H E. apply strict_eqb_eq in E. congruence.
  - intro H. destruct (Js.strict_eqb a b) eqn:E; [|reflexivity].
    apply strict_eqb_eq in E. contradiction.
Qed.

Lemma strict_eqb_refl (a : Js.value) : Js.strict_eqb a a = true.
Proof. now apply strict_eqb_eq. Qed.

Lemma String_of_truthy (v : Js.value) :
  Js.truthy v = true -> Js.str (Js.String v) = v.
Proof. destruct v; simpl; [discriminate | reflexivity]. Qed.

Lemma truthy_default_to (v : Js.value) :
  Js.truthy (Js.default_to (Js.str "") v) = Js.truthy v.
Proof. now destruct v. Qed.

(** ** SearchBarBase: the local value and the timer *)

Section Base.

Import SearchBarBase.
Variable p : Props.

Lemma setValue_same (s : State) : setValue p (value s) s = s.
Proof. unfold setValue. now rewrite strict_eqb_refl. Qed.

Lemma setValue_changed (v : Js.value) (s : State) :
  value s <> v ->
  setValue p v s =
    {| value := v; defaultValue := defaultValue s;
       timeout := Some (now s + ms p); now := now s |}.
Proof.
  intro H. unfold setValue. apply strict_eqb_neq in H. now rewrite H.
Qed.

Lemma value_setValue (v : Js.value) (s : State) : value (setValue p v s) = v.
Proof.
  unfold setValue. destruct (Js.strict_eqb (value s) v) eqn:E; [|reflexivity].
  now apply strict_eqb_eq.
Qed.

Lemma defaultValue_setValue (v : Js.value) (s : State) :
  defaultValue (setValue p v s) = defaultValue s.
Proof. unfold setValue. now destruct (Js.strict_eqb (value s) v). Qed.

Lemma now_setValue (v : Js.value) (s : State) : now (setValue p v s) = now s.
Proof. unfold setValue. now destruct (Js.strict_eqb (value s) v). Qed.

(** Whatever the local value was, the effect on [[defaultValue]] leaves the
    prop in it. *)
Lemma value_syncDefaultValue (s : State) :
  value (syncDefaultValue p s) = defaultValue s.
Proof.
  unfold syncDefaultValue. rewrite value_setValue.
  destruct (Js.strict_eqb (value s) (defaultValue s)) eqn:E; simpl.
  - now apply strict_eqb_eq.
  - reflexivity.
Qed.

Lemma defaultValue_render (v : Js.value) (s : State) :
  defaultValue (render p v s) = v.
Proof.
  unfold render. destruct (Js.strict_eqb (defaultValue s) v) eqn:E.
  - now apply strict_eqb_eq.
  - unfold syncDefaultValue. now rewrite defaultValue_setValue.
Qed.

Lemma value_render (v : Js.value) (s : State) :
  v <> defaultValue s -> value (render p v s) = v.
Proof.
  intro H. unfold render.
  assert (E : Js.strict_eqb (defaultValue s) v = false)
    by (apply strict_eqb_neq; congruence).
  rewrite E. now rewrite value_syncDefaultValue.
Qed.

Lemma render_same (s : State) : render p (defaultValue s) s = s.
Proof. unfold render. now rewrite strict_eqb_refl. Qed.

Lemma value_elapse (dt : N) (s : State) : value (fst (elapse dt s)) = value s.
Proof.
  unfold elapse. destruct (timeout s) as [due|]; [|reflexivity].
  now destruct (due <=? now s + dt).
Qed.

Lemma defaultValue_elapse (dt : N) (s : State) :
  defaultValue (fst (elapse dt s)) = defaultValue s.
Proof.
  unfold elapse. destruct (timeout s) as [due|]; [|reflexivity].
  now destruct (due <=? now s + dt).
Qed.

Lemma now_elapse (dt : N) (s : State) : now (fst (elapse dt s)) = now s + dt.
Proof.
  unfold elapse. destruct (timeout s) as [due|]; [|reflexivity].
  now destruct (due <=? now s + dt).
Qed.

(** A timer that is due fires, once, with the local value. *)
Lemma elapse_due (dt due : N) (s : State) :
  timeout s = Some due -> due <= now s + dt ->
  elapse dt s =
    ({| value := value s; defaultValue := defaultValue s;
        timeout := None; now := now s + dt |},
     [OnChange (value s)]).
Proof.
  intros T H. unfold elapse. rewrite T.
  apply N.leb_le in H. now rewrite H.
Qed.

Lemma elapse_pending (dt due : N) (s : State) :
  timeout s = Some due -> now s + dt < due ->
  elapse dt s =
    ({| value := value s; defaultValue := defaultValue s;
        timeout := Some due; now := now s + dt |}, []).
Proof.
  intros T H. unfold elapse. rewrite T.
  apply N.leb_gt in H. now rewrite H.
Qed.

Lemma elapse_idle (dt : N) (s : State) :
  timeout s = None -> snd (elapse dt s) = [] /\ timeout (fst (elapse dt s)) = None.
Proof. intro T. unfold elapse. now rewrite T. Qed.

Lemma elapse_at_most_once (dt : N) (s : State) :
  snd (elapse dt s) = [] \/ snd (elapse dt s) = [OnChange (value s)].
Proof.
  unfold elapse. destruct (timeout s) as [due|]; [|now left].
  destruct (due <=? now s + dt); [now right | now left].
Qed.

(** Waiting [a] and then [b] is waiting [a + b]. *)
Lemma elapse_add (a b : N) (s : State) :
  let (s1, out1) := elapse a s in
  let (s2, out2) := elapse b s1 in
  elapse (a + b) s = (s2, out1 ++ out2).
Proof.
  unfold elapse. destruct (timeout s) as [due|]; simpl.
  - destruct (due <=? now s + a) eqn:Ea; simpl.
    + apply N.leb_le in Ea.
      assert (E : (due <=? now s + (a + b)) = true) by (apply N.leb_le; lia).
      rewrite E. now rewrite N.add_assoc.
    + destruct (due <=? now s + a + b) eqn:Eb;
        rewrite <- N.add_assoc in Eb; rewrite Eb; now rewrite N.add_assoc.
  - now rewrite N.add_assoc.
Qed.

Lemma run_app (s : State) (es es' : list Event) :
  run p s (es ++ es') =
    let (s1, out1) := run p s es in
    let (s2, out2) := run p s1 es' in
    (s2, out1 ++ out2).
Proof.
  revert s. induction es as [|e es IH]; intro s; simpl.
  - now destruct (run p s es').
  - destruct (step p s e) as [s1 out1]. rewrite IH.
    destruct (run p s1 es) as [s2 out2].
    destruct (run p s2 es') as [s3 out3].
    now rewrite app_assoc.
Qed.

(** An edit that changes the text, then quiet for the debounce time. *)
Lemma edit_then_quiet (s : State) (T : string) (quiet : N) :
  value s <> Js.str T -> ms p <= quiet ->
  run p s [Input (Change T); Input (Elapse quiet)] =
    ({| value := Js.str T; defaultValue := defaultValue s;
        timeout := None; now := now s + quiet |},
     [OnChange (Js.str T)]).
Proof.
  intros Hv Hq. simpl. unfold handleChange.
  rewrite (setValue_changed _ _ Hv).
  rewrite (elapse_due quiet (now s + ms p)); simpl; [reflexivity..|lia].
Qed.

End Base.

Lemma typing_snoc (ks : list Keystroke) (k : Keystroke) :
  typing (ks ++ [k]) =
    typing ks ++ [SearchBarBase.Input (Elapse (after k));
                  SearchBarBase.Input (Change (text k))].
Proof. unfold typing. now rewrite flat_map_app. Qed.

(** C1. After keystrokes that leave the text [T] in the input, the last of
    which changed the text, and no event for at least [debounceTime]:
    [onChange] is called once, with [T], and not again however long the
    quiet lasts.  Whatever the state, a lapse of time makes at most one
    call, and that call carries the local value of that moment. *)
Theorem debounce_delivers_final_text_once
  (p : SearchBarBase.Props) (s0 : SearchBarBase.State)
  (ks : list Keystroke) (k : Keystroke) (quiet : N) :
  let before := fst (SearchBarBase.run p s0 (typing ks)) in
  let typed := fst (SearchBarBase.run p s0 (typing (ks ++ [k]))) in
  let wait dt s := SearchBarBase.step p s (SearchBarBase.Input (Elapse dt)) in
  SearchBarBase.value before <> Js.str (text k) ->
  SearchBarBase.ms p <= quiet ->
  SearchBarBase.value typed = Js.str (text k)
  /\ snd (wait quiet typed) = [OnChange (Js.str (text k))]
  /\ (forall later, snd (wait later (fst (wait quiet typed))) = [])
  /\ (forall s dt,
        snd (wait dt s) = []
        \/ snd (wait dt s) = [OnChange (SearchBarBase.value s)]).
Proof.
  intros before typed wait Hedit Hquiet. subst wait. cbv beta.
  assert (Htyped :
    typed = {| SearchBarBase.value := Js.str (text k);
               SearchBarBase.defaultValue := SearchBarBase.defaultValue before;
               SearchBarBase.timeout :=
                 Some (SearchBarBase.now before + after k + SearchBarBase.ms p);
               SearchBarBase.now := SearchBarBase.now before + after k |}).
  { subst typed before. rewrite typing_snoc, run_app.
    destruct (SearchBarBase.run p s0 (typing ks)) as [s1 out1]. simpl in *.
    destruct (SearchBarBase.elapse (after k) s1) as [s2 out2] eqn:E. simpl.
    assert (V : SearchBarBase.value s2 = SearchBarBase.value s1)
      by (change s2 with (fst (s2, out2)); rewrite <- E; apply value_elapse).
    assert (D : SearchBarBase.defaultValue s2 = SearchBarBase.defaultValue s1)
      by (change s2 with (fst (s2, out2)); rewrite <- E;
          apply defaultValue_elapse).
    assert (W : SearchBarBase.now s2 = SearchBarBase.now s1 + after k)
      by (change s2 with (fst (s2, out2)); rewrite <- E; apply now_elapse).
    unfold SearchBarBase.handleChange.
    rewrite setValue_changed by congruence. now rewrite D, W. }
  assert (Hfire :
    SearchBarBase.step p typed (SearchBarBase.Input (Elapse quiet)) =
      ({| SearchBarBase.value := Js.str (text k);
          SearchBarBase.defaultValue := SearchBarBase.defaultValue before;
          SearchBarBase.timeout := None;
          SearchBarBase.now := SearchBarBase.now before + after k + quiet |},
       [OnChange (Js.str (text k))])).
  { simpl. rewrite Htyped.
    erewrite elapse_due; simpl; [reflexivity | reflexivity | lia]. }
  repeat split.
  - now rewrite Htyped.
  - now rewrite Hfire.
  - intro later. rewrite Hfire. reflexivity.
  - intros s dt. simpl. apply elapse_at_most_once.
Qed.

Lemma debounce_delivers_final_text_once_witness :
  SearchBarBase.value
    (fst (SearchBarBase.run SearchBarBase.bare
            (SearchBarBase.mount SearchBarBase.bare (Js.str "") 0)
            (typing (cat ++ [cat_last]))))
  = Js.str "cat"
  /\ snd (SearchBarBase.step SearchBarBase.bare
            (fst (SearchBarBase.run SearchBarBase.bare
                    (SearchBarBase.mount SearchBarBase.bare (Js.str "") 0)
                    (typing (cat ++ [cat_last]))))
            (SearchBarBase.Input (Elapse 200)))
     = [OnChange (Js.str "cat")].
Proof.
  destruct (debounce_delivers_final_text_once
              SearchBarBase.bare
              (SearchBarBase.mount SearchBarBase.bare (Js.str "") 0)
              cat cat_last 200) as (V & F & _).
  - vm_compute. discriminate.
  - vm_compute. discriminate.
  - split; [exact V | exact F].
Defined.

(** The whole of the example: from the mount on, [onChange] receives "cat"
    and neither "c" nor "ca". *)
Example cat_is_delivered_alone :
  snd (SearchBarBase.run SearchBarBase.bare
         (SearchBarBase.mount SearchBarBase.bare (Js.str "") 0)
         (typing (cat ++ [cat_last])
            ++ [SearchBarBase.Input (Elapse 200)]))
  = [OnChange (Js.str "cat")].
Proof. reflexivity. Qed.

(** C2. Two edits less than [debounceTime] apart, each changing the text:
    nothing is delivered for the first one, the single pending timer is the
    one armed by the second, and what the quiet after it delivers, if it is
    long enough, is the text of the second. *)
Theorem superseded_edit_is_never_delivered
  (p : SearchBarBase.Props) (s0 : SearchBarBase.State)
  (v1 v2 : string) (gap quiet : N) :
  let edits :=
    [SearchBarBase.Input (Change v1); SearchBarBase.Input (Elapse gap);
     SearchBarBase.Input (Change v2)] in
  let all := edits ++ [SearchBarBase.Input (Elapse quiet)] in
  SearchBarBase.value s0 <> Js.str v1 ->
  v1 <> v2 ->
  gap < SearchBarBase.ms p ->
  snd (SearchBarBase.run p s0 edits) = []
  /\ SearchBarBase.timeout (fst (SearchBarBase.run p s0 edits))
     = Some (SearchBarBase.now s0 + gap + SearchBarBase.ms p)
  /\ snd (SearchBarBase.run p s0 all)
     = (if SearchBarBase.ms p <=? quiet then [OnChange (Js.str v2)] else [])
  /\ ~ In (OnChange (Js.str v1)) (snd (SearchBarBase.run p s0 all)).
Proof.
  intros edits all H1 H12 Hgap.
  assert (Hedits :
    SearchBarBase.run p s0 edits =
      ({| SearchBarBase.value := Js.str v2;
          SearchBarBase.defaultValue := SearchBarBase.defaultValue s0;
          SearchBarBase.timeout :=
            Some (SearchBarBase.now s0 + gap + SearchBarBase.ms p);
          SearchBarBase.now := SearchBarBase.now s0 + gap |}, [])).
  { subst edits. simpl. unfold SearchBarBase.handleChange.
    rewrite (setValue_changed p _ _ H1).
    erewrite elapse_pending; simpl; [|reflexivity|lia].
    rewrite setValue_changed; simpl; [reflexivity|congruence]. }
  assert (Hall :
    snd (SearchBarBase.run p s0 all)
    = (if SearchBarBase.ms p <=? quiet then [OnChange (Js.str v2)] else [])).
  { subst all. rewrite run_app, Hedits. simpl.
    unfold SearchBarBase.elapse. simpl.
    destruct (SearchBarBase.ms p <=? quiet) eqn:E.
    - apply N.leb_le in E.
      assert (L : (SearchBarBase.now s0 + gap + SearchBarBase.ms p
                   <=? SearchBarBase.now s0 + gap + quiet) = true)
        by (apply N.leb_le; lia).
      now rewrite L.
    - apply N.leb_gt in E.
      assert (L : (SearchBarBase.now s0 + gap + SearchBarBase.ms p
                   <=? SearchBarBase.now s0 + gap + quiet) = false)
        by (apply N.leb_gt; lia).
      now rewrite L. }
  repeat split.
  - now rewrite Hedits.
  - now rewrite Hedits.
  - exact Hall.
  - rewrite Hall. destruct (SearchBarBase.ms p <=? quiet); simpl.
    + intros [E|[]]. congruence.
    + tauto.
Qed.

Lemma superseded_edit_is_never_delivered_witness :
  snd (SearchBarBase.run SearchBarBase.bare
         (SearchBarBase.mount SearchBarBase.bare (Js.str "") 0)
         [SearchBarBase.Input (Change "c"); SearchBarBase.Input (Elapse 150);
          SearchBarBase.Input (Change "ca"); SearchBarBase.Input (Elapse 200)])
  = [OnChange (Js.str "ca")].
Proof.
  destruct (superseded_edit_is_never_delivered
              SearchBarBase.bare
              (SearchBarBase.mount SearchBarBase.bare (Js.str "") 0)
              "c" "ca" 150 200) as (_ & _ & D & _).
  - vm_compute. discriminate.
  - vm_compute. discriminate.
  - vm_compute. reflexivity.
  - exact D.
Defined.

(** ** SearchBarBase: the "Clear" button, the keys, the placeholder *)

Lemma run_never_calls_onClear
  (p : SearchBarBase.Props) (es : list SearchBarBase.Event)
  (s : SearchBarBase.State) :
  ~ In OnClear (snd (SearchBarBase.run p s es)).
Proof.
  revert s. induction es as [|e es IH]; intro s; simpl; [tauto|].
  destruct (SearchBarBase.step p s e) as [s1 out1] eqn:E.
  specialize (IH s1). destruct (SearchBarBase.run p s1 es) as [s2 out2].
  simpl in *. intro H. apply in_app_or in H. destruct H as [H|H]; [|tauto].
  destruct e as [[text|key| |dt]|v]; simpl in E.
  - injection E as <- <-. destruct H.
  - injection E as <- <-. unfold SearchBarBase.handleKeyDown in H.
    destruct (SearchBarBase.onKeyDown p),
      (SearchBarBase.onSubmit p && String.eqb key "Enter");
      simpl in H; intuition discriminate.
  - injection E as <- <-. unfold SearchBarBase.handleClear in H.
    destruct (SearchBarBase.hasClearButton p); simpl in H;
      intuition discriminate.
  - pose proof (elapse_at_most_once dt s) as A. rewrite E in A. simpl in A.
    destruct A as [-> | ->]; simpl in H; intuition discriminate.
  - injection E as <- <-. destruct H.
Qed.

(** C3. A click on "Clear" calls [onChange('')] at once and leaves the state
    of the component as it was: the text typed stays in the input.  With the
    [value] prop [''], "abc" typed and "Clear" clicked 50 ms later, the
    parent receives [''], renders with [''] again, and 150 ms later
    receives "abc". *)
Theorem clear_leaves_the_local_value :
  (forall p s, fst (SearchBarBase.step p s (SearchBarBase.Input ClickClear)) = s)
  /\ (forall s,
        snd (SearchBarBase.step SearchBarBase.bare s
               (SearchBarBase.Input ClickClear))
        = [OnChange (Js.str "")])
  /\ SearchBarBase.run SearchBarBase.bare
       (SearchBarBase.mount SearchBarBase.bare (Js.str "") 0)
       [SearchBarBase.Input (Change "abc");
        SearchBarBase.Input (Elapse 50);
        SearchBarBase.Input ClickClear;
        SearchBarBase.Render (Js.str "");
        SearchBarBase.Input (Elapse 150)]
     = ({| SearchBarBase.value := Js.str "abc";
           SearchBarBase.defaultValue := Js.str "";
           SearchBarBase.timeout := None;
           SearchBarBase.now := 200 |},
        [OnChange (Js.str ""); OnChange (Js.str "abc")]).
Proof. repeat split. Qed.

(** The same under [<SearchBarInput />] with an empty term: the click
    writes [''] over [''], the input keeps "abc", and the timer writes
    "abc" into the context afterwards. *)
Example clear_in_SearchBarInput :
  SearchBarInput.run SearchBarInput.bare
    (fst (SearchBarInput.mount SearchBarInput.bare Js.undefined (Js.str "") 0))
    [SearchBarInput.Input (Change "abc");
     SearchBarInput.Input (Elapse 50);
     SearchBarInput.Input ClickClear;
     SearchBarInput.Input (Elapse 150)]
  = ({| SearchBarInput.term := Js.str "abc";
        SearchBarInput.defaultValue := Js.str "";
        SearchBarInput.base :=
          {| SearchBarBase.value := Js.str "abc";
             SearchBarBase.defaultValue := Js.str "abc";
             SearchBarBase.timeout := None;
             SearchBarBase.now := 200 |} |},
     [SetTerm (Js.str ""); SetTerm (Js.str "abc")]).
Proof. reflexivity. Qed.

(** C6. A key event calls [onSubmit] exactly when it was supplied and the
    key is Enter; the call is made within the key event, after the caller's
    [onKeyDown], whatever the timer; the local value and the timer are left
    as they were. *)
Theorem enter_submits_at_once
  (p : SearchBarBase.Props) (s : SearchBarBase.State) (key : string) :
  SearchBarBase.step p s (SearchBarBase.Input (KeyDown "Enter"))
  = (s, (if SearchBarBase.onKeyDown p then [OnKeyDown "Enter"] else [])
          ++ (if SearchBarBase.onSubmit p then [OnSubmit] else []))
  /\ fst (SearchBarBase.step p s (SearchBarBase.Input (KeyDown key))) = s
  /\ (In OnSubmit (snd (SearchBarBase.step p s (SearchBarBase.Input (KeyDown key))))
      <-> SearchBarBase.onSubmit p = true /\ key = "Enter"%string).
Proof.
  split; [|split].
  - simpl. unfold SearchBarBase.handleKeyDown. simpl.
    now rewrite andb_true_r.
  - reflexivity.
  - simpl. unfold SearchBarBase.handleKeyDown.
    destruct (SearchBarBase.onSubmit p); simpl.
    + destruct (String.eqb_spec key "Enter") as [E|E];
        destruct (SearchBarBase.onKeyDown p); simpl;
        intuition (try discriminate; try contradiction).
    + destruct (SearchBarBase.onKeyDown p); simpl;
        intuition discriminate.
Qed.

(** C7. No event makes [SearchBarBase] call [onClear]; with [onClear]
    supplied, a click on "Clear" calls [onChange('')] and nothing else. *)
Theorem onClear_is_never_called :
  (forall p s es, ~ In OnClear (snd (SearchBarBase.run p s es)))
  /\ SearchBarBase.onClear SearchBarBase.with_onClear = true
  /\ (forall s,
        SearchBarBase.step SearchBarBase.with_onClear s
          (SearchBarBase.Input ClickClear)
        = (s, [OnChange (Js.str "")])).
Proof.
  split; [|split].
  - intros p s es. apply run_never_calls_onClear.
  - reflexivity.
  - reflexivity.
Qed.

(** C8. [SearchBarBase] mounted without a [value] prop: the local value is
    [undefined], not the empty string, and stays so until an edit or a
    render with a [value]; the first call of [onChange], when the debounce
    time has passed, hands [undefined] to the caller. *)
Theorem absent_value_is_undefined_in_SearchBarBase
  (p : SearchBarBase.Props) (t : N) :
  SearchBarBase.value (SearchBarBase.mount p Js.undefined t) = Js.undefined
  /\ SearchBarBase.value (SearchBarBase.mount p Js.undefined t) <> Js.str ""
  /\ SearchBarBase.step p (SearchBarBase.mount p Js.undefined t)
       (SearchBarBase.Input (Elapse (SearchBarBase.ms p)))
     = ({| SearchBarBase.value := Js.undefined;
           SearchBarBase.defaultValue := Js.undefined;
           SearchBarBase.timeout := None;
           SearchBarBase.now := t + SearchBarBase.ms p |},
        [OnChange Js.undefined]).
Proof.
  split; [|split].
  - reflexivity.
  - discriminate.
  - simpl. unfold SearchBarBase.elapse. simpl. now rewrite N.leb_refl.
Qed.

(** C9. The placeholder is "Search in " followed by the title that the
    configuration gives for [app.title], when that title is not empty. *)
Theorem placeholder_names_the_app_title
  (p : SearchBarBase.Props) (title : string) :
  SearchBarBase.appTitle p = Some title ->
  title <> ""%string ->
  SearchBarBase.placeholder p = String.append "Search in " title.
Proof.
  intros H N. unfold SearchBarBase.placeholder, Js.or_else. rewrite H.
  destruct (String.eqb_spec title ""); [contradiction | reflexivity].
Qed.

Lemma placeholder_names_the_app_title_witness :
  SearchBarBase.placeholder SearchBarBase.in_acme = "Search in Acme"%string.
Proof.
  apply (placeholder_names_the_app_title SearchBarBase.in_acme "Acme").
  - reflexivity.
  - discriminate.
Defined.

(** Without a title, or with an empty one, the placeholder names
    Backstage. *)
Lemma placeholder_default (p : SearchBarBase.Props) :
  SearchBarBase.appTitle p = None \/ SearchBarBase.appTitle p = Some ""%string ->
  SearchBarBase.placeholder p = "Search in Backstage"%string.
Proof.
  unfold SearchBarBase.placeholder. now intros [-> | ->].
Qed.

(** ** SearchBarInput and SearchBarAutocomplete: the shared term *)

Lemma defaultValue_mount (p : SearchBarBase.Props) (v : Js.value) (t : N) :
  SearchBarBase.defaultValue (SearchBarBase.mount p v t) = v.
Proof.
  unfold SearchBarBase.mount, SearchBarBase.syncDefaultValue. simpl.
  now rewrite defaultValue_setValue.
Qed.

Lemma defaultValue_interact
  (p : SearchBarBase.Props) (s : SearchBarBase.State) (u : Ui) :
  SearchBarBase.defaultValue (fst (SearchBarBase.interact p s u))
  = SearchBarBase.defaultValue s.
Proof.
  destruct u as [text|key| |dt]; simpl; try reflexivity.
  - apply defaultValue_setValue.
  - apply defaultValue_elapse.
Qed.

Section Input.

Import SearchBarInput.
Variable p : Props.

Lemma linked_setTerm (v : Js.value) (st : State) : linked (setTerm p v st).
Proof. unfold linked, setTerm. simpl. apply defaultValue_render. Qed.

Lemma setTerm_same (st : State) : linked st -> setTerm p (term st) st = st.
Proof.
  unfold linked, setTerm. intro L. rewrite <- L at 2. rewrite render_same.
  now destruct st.
Qed.

Lemma linked_useSearchBarState (st : State) :
  linked st -> linked (fst (useSearchBarState p st)).
Proof.
  intro L. unfold useSearchBarState.
  destruct (Js.truthy (defaultValue st)); simpl; [apply linked_setTerm | exact L].
Qed.

Lemma linked_deliverAll (cs : list Call) (st : State) :
  linked st -> linked (fst (deliverAll p st cs)).
Proof.
  revert st. induction cs as [|c cs IH]; intros st L; simpl; [exact L|].
  destruct (deliver p st c) as [st1 out1] eqn:E.
  assert (L1 : linked st1).
  { destruct c; simpl in E; try (injection E as <- <-; exact L).
    unfold handleChange in E. destruct (onChange p); injection E as <- <-;
      [exact L | apply linked_setTerm]. }
  specialize (IH st1 L1). now destruct (deliverAll p st1 cs).
Qed.

Lemma linked_step (st : State) (e : Event) :
  linked st -> linked (fst (step p st e)).
Proof.
  intro L. destruct e as [u|v|v]; simpl.
  - unfold interact.
    destruct (SearchBarBase.interact (rest p) (base st) u) as [b cs] eqn:E.
    apply linked_deliverAll. unfold linked in *. simpl.
    change b with (fst (b, cs)). rewrite <- E.
    now rewrite defaultValue_interact.
  - unfold render.
    destruct (Js.strict_eqb (defaultValue st) (Js.default_to (Js.str "") v));
      [exact L|].
    now apply linked_useSearchBarState.
  - apply linked_setTerm.
Qed.

Lemma linked_run (es : list Event) (st : State) :
  linked st -> linked (fst (run p st es)).
Proof.
  revert st. induction es as [|e es IH]; intros st L; simpl; [exact L|].
  pose proof (linked_step st e L) as L1.
  destruct (step p st e) as [st1 out1]. specialize (IH st1 L1).
  now destruct (run p st1 es).
Qed.

Lemma linked_mount (v term0 : Js.value) (t : N) :
  linked (fst (mount p v term0 t)).
Proof.
  unfold mount. apply linked_useSearchBarState.
  unfold linked. simpl. apply defaultValue_mount.
Qed.

(** Rendered with the term as its [value] prop, as [SearchBarAutocomplete]
    does, a [SearchBarInput] writes nothing new to the context. *)
Lemma render_with_the_term (st : State) :
  linked st -> fst (render p (term st) st) =
    {| term := term st;
       defaultValue := Js.default_to (Js.str "") (term st);
       base := base st |}.
Proof.
  intro L. unfold render.
  destruct (Js.strict_eqb (defaultValue st) (Js.default_to (Js.str "") (term st)))
    eqn:E.
  - apply strict_eqb_eq in E. rewrite <- E. now destruct st.
  - unfold useSearchBarState. simpl.
    destruct (Js.truthy (Js.default_to (Js.str "") (term st))) eqn:T;
      [|reflexivity].
    rewrite truthy_default_to in T.
    destruct (term st) as [|s] eqn:V; [discriminate|]. simpl.
    unfold setTerm. simpl. unfold linked in L. rewrite V in L.
    rewrite <- L. now rewrite render_same.
Qed.

(** With a callback, what [SearchBarBase] calls reaches the caller as it
    is, and the state of the context is not touched. *)
Lemma deliverAll_to_caller (cs : list Call) (st : State) :
  onChange p = true -> deliverAll p st cs = (st, cs).
Proof.
  intro H. induction cs as [|c cs IH]; simpl; [reflexivity|].
  assert (E : deliver p st c = (st, [c])).
  { destruct c; try reflexivity. simpl. unfold handleChange. now rewrite H. }
  now rewrite E, IH.
Qed.

(** Without one, the values go to [setTerm]. *)
Lemma deliverAll_to_context (cs : list Call) (st : State) :
  onChange p = false -> snd (deliverAll p st cs) = map toContext cs.
Proof.
  intro H. revert st. induction cs as [|c cs IH]; intro st; simpl;
    [reflexivity|].
  destruct (deliver p st c) as [st1 out1] eqn:E.
  specialize (IH st1). destruct (deliverAll p st1 cs) as [st2 out2].
  simpl in *. rewrite <- IH.
  destruct c; simpl in E; try (injection E as <- <-; reflexivity).
  unfold handleChange in E. rewrite H in E. now injection E as <- <-.
Qed.

End Input.

Section Autocomplete.

Import SearchBarAutocomplete.
Variable p : Props.

Lemma linked_Auto_setTerm (v : Js.value) (st : State) :
  linked (input (fst (setTerm p v st))).
Proof.
  unfold setTerm.
  pose proof (linked_step (inputProps p)
                (SearchBarInput.setTerm (inputProps p) v (input st))
                (SearchBarInput.Render v)
                (linked_setTerm (inputProps p) v (input st))) as L.
  simpl in L.
  now destruct (SearchBarInput.render (inputProps p) v
                  (SearchBarInput.setTerm (inputProps p) v (input st))).
Qed.

Lemma linked_Auto_useSearchBarState (st : State) :
  linked (input st) -> linked (input (fst (useSearchBarState p st))).
Proof.
  intro L. unfold useSearchBarState.
  destruct (Js.truthy (defaultInputValue st)); [|exact L].
  pose proof (linked_Auto_setTerm
                (Js.str (Js.String (defaultInputValue st))) st) as L1.
  now destruct (setTerm p (Js.str (Js.String (defaultInputValue st))) st).
Qed.

Lemma linked_Auto_deliverAll (cs : list Call) (st : State) :
  linked (input st) -> linked (input (fst (deliverAll p st cs))).
Proof.
  revert st. induction cs as [|c cs IH]; intros st L; simpl; [exact L|].
  destruct (deliver p st c) as [st1 out1] eqn:E.
  assert (L1 : linked (input st1)).
  { destruct c; simpl in E; try (injection E as <- <-; exact L).
    unfold handleInputChange in E.
    destruct (onInputChange p); [injection E as <- <-; exact L|].
    pose proof (linked_Auto_setTerm v st) as L1.
    destruct (setTerm p v st). now injection E as <- <-. }
  specialize (IH st1 L1). now destruct (deliverAll p st1 cs).
Qed.

Lemma linked_Auto_step (st : State) (e : Event) :
  linked (input st) -> linked (input (fst (step p st e))).
Proof.
  intro L. destruct e as [u|v|v]; simpl.
  - unfold interact.
    pose proof (linked_step (inputProps p) (input st)
                  (SearchBarInput.Input u) L) as L1. simpl in L1.
    destruct (SearchBarInput.interact (inputProps p) (input st) u) as [i cs].
    now apply linked_Auto_deliverAll.
  - unfold render.
    destruct (Js.strict_eqb (defaultInputValue st) v); [exact L|].
    now apply linked_Auto_useSearchBarState.
  - apply linked_Auto_setTerm.
Qed.

Lemma linked_Auto_run (es : list Event) (st : State) :
  linked (input st) -> linked (input (fst (run p st es))).
Proof.
  revert st. induction es as [|e es IH]; intros st L; simpl; [exact L|].
  pose proof (linked_Auto_step st e L) as L1.
  destruct (step p st e) as [st1 out1]. specialize (IH st1 L1).
  now destruct (run p st1 es).
Qed.

Lemma linked_Auto_mount (v term0 : Js.value) (t : N) :
  linked (input (fst (mount p v term0 t))).
Proof.
  unfold mount.
  pose proof (linked_mount (inputProps p) term0 term0 t) as L.
  destruct (SearchBarInput.mount (inputProps p) term0 term0 t) as [i out1].
  pose proof (linked_Auto_useSearchBarState
                {| defaultInputValue := v; input := i |} L) as L1.
  now destruct (useSearchBarState p {| defaultInputValue := v; input := i |}).
Qed.

(** A new term reaches the [SearchBarBase] below as its local value. *)
Lemma value_Auto_setTerm (v : Js.value) (st : State) :
  linked (input st) -> v <> term st ->
  SearchBarBase.value (SearchBarInput.base (input (fst (setTerm p v st)))) = v.
Proof.
  intros L H. unfold setTerm.
  pose proof (render_with_the_term (inputProps p)
                (SearchBarInput.setTerm (inputProps p) v (input st))
                (linked_setTerm (inputProps p) v (input st))) as R.
  simpl in R.
  destruct (SearchBarInput.render (inputProps p) v
              (SearchBarInput.setTerm (inputProps p) v (input st)))
    as [i out]. simpl in *. subst i. simpl.
  apply value_render. unfold linked in L. unfold term in H. congruence.
Qed.

Lemma deliverAll_Auto_to_caller (cs : list Call) (st : State) :
  onInputChange p = true -> deliverAll p st cs = (st, cs).
Proof.
  intro H. induction cs as [|c cs IH]; simpl; [reflexivity|].
  assert (E : deliver p st c = (st, [c])).
  { destruct c; try reflexivity. simpl. unfold handleInputChange. now rewrite H. }
  now rewrite E, IH.
Qed.

End Autocomplete.

Lemma mount_state (p : SearchBarBase.Props) (v : Js.value) (t : N) :
  SearchBarBase.mount p v t =
    {| SearchBarBase.value := v;
       SearchBarBase.defaultValue := v;
       SearchBarBase.timeout := Some (t + SearchBarBase.ms p);
       SearchBarBase.now := t |}.
Proof.
  unfold SearchBarBase.mount, SearchBarBase.syncDefaultValue,
    SearchBarBase.setValue. simpl.
  rewrite strict_eqb_refl. simpl. now rewrite strict_eqb_refl.
Qed.

Lemma render_after_mount
  (q : SearchBarBase.Props) (v w : Js.value) (t : N) :
  SearchBarBase.render q v (SearchBarBase.mount q w t)
  = {| SearchBarBase.value := v;
       SearchBarBase.defaultValue := v;
       SearchBarBase.timeout := Some (t + SearchBarBase.ms q);
       SearchBarBase.now := t |}.
Proof.
  rewrite mount_state. unfold SearchBarBase.render.
  cbn [SearchBarBase.defaultValue SearchBarBase.value SearchBarBase.timeout
       SearchBarBase.now].
  destruct (Js.strict_eqb w v) eqn:E.
  - apply strict_eqb_eq in E. now subst.
  - unfold SearchBarBase.syncDefaultValue.
    cbn [SearchBarBase.defaultValue SearchBarBase.value]. rewrite E.
    cbn [negb]. rewrite setValue_changed; [reflexivity|].
    now apply strict_eqb_neq.
Qed.

Lemma Input_mount_truthy
  (p : SearchBarInput.Props) (v term0 : Js.value) (t : N) :
  Js.truthy v = true ->
  SearchBarInput.mount p v term0 t
  = ({| SearchBarInput.term := v;
        SearchBarInput.defaultValue := v;
        SearchBarInput.base :=
          {| SearchBarBase.value := v;
             SearchBarBase.defaultValue := v;
             SearchBarBase.timeout :=
               Some (t + SearchBarBase.ms (SearchBarInput.rest p));
             SearchBarBase.now := t |} |},
     [SetTerm v]).
Proof.
  intro Hv. destruct v as [|d]; [discriminate|].
  unfold SearchBarInput.mount, SearchBarInput.useSearchBarState.
  cbn [SearchBarInput.defaultValue Js.default_to Js.String].
  rewrite Hv. unfold SearchBarInput.setTerm.
  cbn [SearchBarInput.defaultValue SearchBarInput.base].
  now rewrite render_after_mount.
Qed.

Lemma Input_mount_with_the_term
  (p : SearchBarInput.Props) (term0 : Js.value) (t : N) :
  SearchBarInput.mount p term0 term0 t
  = ({| SearchBarInput.term := term0;
        SearchBarInput.defaultValue := Js.default_to (Js.str "") term0;
        SearchBarInput.base :=
          SearchBarBase.mount (SearchBarInput.rest p) term0 t |},
     if Js.truthy term0 then [SetTerm term0] else []).
Proof.
  destruct (Js.truthy term0) eqn:E.
  - rewrite (Input_mount_truthy p term0 term0 t E).
    rewrite mount_state. now destruct term0.
  - unfold SearchBarInput.mount, SearchBarInput.useSearchBarState.
    cbn [SearchBarInput.defaultValue].
    now rewrite truthy_default_to, E.
Qed.

Lemma Auto_setTerm_after_mount
  (a : SearchBarAutocomplete.Props) (d : string) (w dv term0 : Js.value) (t : N) :
  Js.truthy (Js.str d) = true ->
  fst (SearchBarAutocomplete.setTerm a (Js.str d)
    {| SearchBarAutocomplete.defaultInputValue := w;
       SearchBarAutocomplete.input :=
         {| SearchBarInput.term := term0;
            SearchBarInput.defaultValue := dv;
            SearchBarInput.base :=
              SearchBarBase.mount (SearchBarAutocomplete.restInput a) term0 t |} |})
  = {| SearchBarAutocomplete.defaultInputValue := w;
       SearchBarAutocomplete.input :=
         {| SearchBarInput.term := Js.str d;
            SearchBarInput.defaultValue := Js.str d;
            SearchBarInput.base :=
              {| SearchBarBase.value := Js.str d;
                 SearchBarBase.defaultValue := Js.str d;
                 SearchBarBase.timeout :=
                   Some (t + SearchBarBase.ms (SearchBarAutocomplete.restInput a));
                 SearchBarBase.now := t |} |} |}.
Proof.
  intro Hv. unfold SearchBarAutocomplete.setTerm, SearchBarInput.setTerm.
  cbn [SearchBarAutocomplete.input SearchBarAutocomplete.defaultInputValue
       SearchBarInput.base SearchBarInput.defaultValue SearchBarInput.rest
       SearchBarAutocomplete.inputProps].
  rewrite render_after_mount. unfold SearchBarInput.render.
  cbn [SearchBarInput.defaultValue SearchBarInput.term SearchBarInput.base
       Js.default_to].
  destruct (Js.strict_eqb dv (Js.str d)) eqn:E.
  - apply strict_eqb_eq in E. now subst.
  - unfold SearchBarInput.useSearchBarState.
    cbn [SearchBarInput.defaultValue Js.String]. rewrite Hv.
    unfold SearchBarInput.setTerm.
    cbn [SearchBarInput.defaultValue SearchBarInput.base SearchBarInput.rest
         SearchBarAutocomplete.inputProps fst].
    unfold SearchBarBase.render. cbn [SearchBarBase.defaultValue].
    now rewrite strict_eqb_refl.
Qed.

(** ** The value prop of SearchBarInput and SearchBarAutocomplete *)

(** A truthy [value] prop that is not the one of the render before goes to
    the context. *)
Lemma Input_render_truthy
  (p : SearchBarInput.Props) (v : Js.value) (st : SearchBarInput.State) :
  Js.truthy v = true ->
  v <> SearchBarInput.defaultValue st ->
  SearchBarInput.render p v st
  = (SearchBarInput.setTerm p v
       {| SearchBarInput.term := SearchBarInput.term st;
          SearchBarInput.defaultValue := v;
          SearchBarInput.base := SearchBarInput.base st |},
     [SetTerm v]).
Proof.
  intros T N. destruct v as [|d]; [discriminate|].
  unfold SearchBarInput.render. cbn [Js.default_to].
  assert (E : Js.strict_eqb (SearchBarInput.defaultValue st) (Js.str d) = false)
    by (apply strict_eqb_neq; congruence).
  rewrite E. unfold SearchBarInput.useSearchBarState.
  cbn [SearchBarInput.defaultValue Js.String]. now rewrite T.
Qed.

(** A falsy one goes nowhere. *)
Lemma Input_render_falsy
  (p : SearchBarInput.Props) (v : Js.value) (st : SearchBarInput.State) :
  Js.truthy v = false ->
  snd (SearchBarInput.render p v st) = []
  /\ SearchBarInput.term (fst (SearchBarInput.render p v st))
     = SearchBarInput.term st
  /\ SearchBarInput.base (fst (SearchBarInput.render p v st))
     = SearchBarInput.base st.
Proof.
  intro F. unfold SearchBarInput.render.
  destruct (Js.strict_eqb (SearchBarInput.defaultValue st)
              (Js.default_to (Js.str "") v)); [now repeat split|].
  unfold SearchBarInput.useSearchBarState.
  cbn [SearchBarInput.defaultValue].
  rewrite truthy_default_to, F. now repeat split.
Qed.

(** What the [SearchBarInput] inside a [SearchBarAutocomplete] writes when
    the term changes is the term. *)
Lemma Auto_setTerm_echo
  (a : SearchBarAutocomplete.Props) (v : Js.value)
  (st : SearchBarAutocomplete.State) (c : Call) :
  In c (snd (SearchBarAutocomplete.setTerm a v st)) -> c = SetTerm v.
Proof.
  unfold SearchBarAutocomplete.setTerm.
  destruct (SearchBarInput.render (SearchBarAutocomplete.inputProps a) v
              (SearchBarInput.setTerm (SearchBarAutocomplete.inputProps a) v
                 (SearchBarAutocomplete.input st))) as [i out] eqn:R.
  cbn [snd]. unfold SearchBarInput.render in R.
  destruct (Js.strict_eqb _ _) in R.
  - injection R as <- <-. intros [].
  - unfold SearchBarInput.useSearchBarState in R.
    cbn [SearchBarInput.defaultValue] in R.
    rewrite truthy_default_to in R.
    destruct (Js.truthy v) eqn:T.
    + destruct v as [|d]; [discriminate|]. cbn [Js.default_to Js.String] in R.
      injection R as <- <-. intros [<-|[]]. reflexivity.
    + injection R as <- <-. intros [].
Qed.

Lemma term_Auto_setTerm
  (a : SearchBarAutocomplete.Props) (v : Js.value)
  (st : SearchBarAutocomplete.State) :
  SearchBarAutocomplete.term (fst (SearchBarAutocomplete.setTerm a v st)) = v.
Proof.
  unfold SearchBarAutocomplete.setTerm, SearchBarAutocomplete.term.
  destruct (SearchBarInput.render (SearchBarAutocomplete.inputProps a) v
              (SearchBarInput.setTerm (SearchBarAutocomplete.inputProps a) v
                 (SearchBarAutocomplete.input st))) as [i out] eqn:R.
  cbn [fst SearchBarAutocomplete.input]. unfold SearchBarInput.render in R.
  destruct (Js.strict_eqb _ _) in R.
  - injection R as <- _. reflexivity.
  - unfold SearchBarInput.useSearchBarState in R.
    cbn [SearchBarInput.defaultValue] in R.
    rewrite truthy_default_to in R.
    destruct (Js.truthy v) eqn:T.
    + destruct v as [|d]; [discriminate|]. cbn [Js.default_to Js.String] in R.
      injection R as <- _. reflexivity.
    + injection R as <- _. reflexivity.
Qed.

Lemma Auto_render_truthy
  (a : SearchBarAutocomplete.Props) (v : Js.value)
  (st : SearchBarAutocomplete.State) :
  Js.truthy v = true ->
  v <> SearchBarAutocomplete.defaultInputValue st ->
  SearchBarAutocomplete.render a v st
  = (fst (SearchBarAutocomplete.setTerm a v
            {| SearchBarAutocomplete.defaultInputValue := v;
               SearchBarAutocomplete.input := SearchBarAutocomplete.input st |}),
     SetTerm v
       :: snd (SearchBarAutocomplete.setTerm a v
                 {| SearchBarAutocomplete.defaultInputValue := v;
                    SearchBarAutocomplete.input :=
                      SearchBarAutocomplete.input st |})).
Proof.
  intros T N. destruct v as [|d]; [discriminate|].
  unfold SearchBarAutocomplete.render.
  assert (E : Js.strict_eqb (SearchBarAutocomplete.defaultInputValue st)
                (Js.str d) = false)
    by (apply strict_eqb_neq; congruence).
  rewrite E. unfold SearchBarAutocomplete.useSearchBarState.
  cbn [SearchBarAutocomplete.defaultInputValue Js.String]. rewrite T.
  now destruct (SearchBarAutocomplete.setTerm a (Js.str d) _).
Qed.

Lemma Auto_render_falsy
  (a : SearchBarAutocomplete.Props) (v : Js.value)
  (st : SearchBarAutocomplete.State) :
  Js.truthy v = false ->
  snd (SearchBarAutocomplete.render a v st) = []
  /\ SearchBarAutocomplete.input (fst (SearchBarAutocomplete.render a v st))
     = SearchBarAutocomplete.input st.
Proof.
  intro F. unfold SearchBarAutocomplete.render.
  destruct (Js.strict_eqb (SearchBarAutocomplete.defaultInputValue st) v);
    [now split|].
  unfold SearchBarAutocomplete.useSearchBarState.
  cbn [SearchBarAutocomplete.defaultInputValue]. rewrite F. now split.
Qed.

(** C4, as stated, fails: [<SearchBarInput value="abc" />] rendered again
    with [value=""] keeps "abc" in the input and in the context. *)
Lemma value_prop_reset_to_empty_is_ignored :
  SearchBarInput.run SearchBarInput.bare
    (fst (SearchBarInput.mount SearchBarInput.bare (Js.str "abc") (Js.str "") 0))
    [SearchBarInput.Render (Js.str "")]
  = ({| SearchBarInput.term := Js.str "abc";
        SearchBarInput.defaultValue := Js.str "";
        SearchBarInput.base :=
          {| SearchBarBase.value := Js.str "abc";
             SearchBarBase.defaultValue := Js.str "abc";
             SearchBarBase.timeout := Some 200;
             SearchBarBase.now := 0 |} |}, [])
  /\ SearchBarBase.value
       (SearchBarInput.base
          (fst (SearchBarInput.run SearchBarInput.bare
                  (fst (SearchBarInput.mount SearchBarInput.bare
                          (Js.str "abc") (Js.str "") 0))
                  [SearchBarInput.Render (Js.str "")])))
     <> Js.str "".
Proof. split; [reflexivity | discriminate]. Qed.

(** C4, amended.  A render of [SearchBarBase] with a [value] prop that is
    not the one of the render before leaves that prop as the local value,
    whatever was typed in the meantime.  For [SearchBarInput] and
    [SearchBarAutocomplete] the external value is the term of the shared
    context: at any point of any run from the mount, a new term becomes the
    local value of the [SearchBarBase] below, whether another user of the
    context sets it ([vi], [va]) or the component itself does because its
    caller changed the [value] prop to a truthy value that is not the term
    ([ri], [ra]).  A [value] prop changed to [undefined] or to the empty
    string ([fv]) is not handed to the context: term and local value stay
    as they were.  Under [SearchBarAutocomplete] the local value is the
    [value] prop that [SearchBarBase] gives to [InputBase]; what the input
    element shows there is not stated. *)
Theorem external_value_overrides_local_value
  (pb : SearchBarBase.Props) (sb : SearchBarBase.State) (vb : Js.value)
  (pi : SearchBarInput.Props) (ei : list SearchBarInput.Event)
  (pa : SearchBarAutocomplete.Props) (ea : list SearchBarAutocomplete.Event)
  (v0 term0 vi va ri ra fv : Js.value) (t : N) :
  let si := fst (SearchBarInput.run pi
                   (fst (SearchBarInput.mount pi v0 term0 t)) ei) in
  let sa := fst (SearchBarAutocomplete.run pa
                   (fst (SearchBarAutocomplete.mount pa v0 term0 t)) ea) in
  let local_i e := SearchBarBase.value
                     (SearchBarInput.base (fst (SearchBarInput.step pi si e))) in
  let local_a e := SearchBarBase.value
                     (SearchBarInput.base
                        (SearchBarAutocomplete.input
                           (fst (SearchBarAutocomplete.step pa sa e)))) in
  vb <> SearchBarBase.defaultValue sb ->
  vi <> SearchBarInput.term si ->
  va <> SearchBarAutocomplete.term sa ->
  Js.truthy ri = true ->
  ri <> SearchBarInput.defaultValue si ->
  ri <> SearchBarInput.term si ->
  Js.truthy ra = true ->
  ra <> SearchBarAutocomplete.defaultInputValue sa ->
  ra <> SearchBarAutocomplete.term sa ->
  Js.truthy fv = false ->
  SearchBarBase.value
    (fst (SearchBarBase.step pb sb (SearchBarBase.Render vb))) = vb
  /\ local_i (SearchBarInput.Context vi) = vi
  /\ local_a (SearchBarAutocomplete.Context va) = va
  /\ (local_i (SearchBarInput.Render ri) = ri
      /\ SearchBarInput.term
           (fst (SearchBarInput.step pi si (SearchBarInput.Render ri))) = ri)
  /\ (local_a (SearchBarAutocomplete.Render ra) = ra
      /\ SearchBarAutocomplete.term
           (fst (SearchBarAutocomplete.step pa sa
                   (SearchBarAutocomplete.Render ra))) = ra)
  /\ (local_i (SearchBarInput.Render fv)
      = SearchBarBase.value (SearchBarInput.base si)
      /\ SearchBarInput.term
           (fst (SearchBarInput.step pi si (SearchBarInput.Render fv)))
         = SearchBarInput.term si)
  /\ (local_a (SearchBarAutocomplete.Render fv)
      = SearchBarBase.value
          (SearchBarInput.base (SearchBarAutocomplete.input sa))
      /\ SearchBarAutocomplete.term
           (fst (SearchBarAutocomplete.step pa sa
                   (SearchBarAutocomplete.Render fv)))
         = SearchBarAutocomplete.term sa).
Proof.
  intros si sa local_i local_a Hb Hi Ha Ti Di Ni Ta Da Na F.
  assert (Li : linked si) by (apply linked_run, linked_mount).
  assert (La : linked (SearchBarAutocomplete.input sa))
    by (apply linked_Auto_run, linked_Auto_mount).
  subst local_i local_a. cbv beta.
  split; [|split; [|split; [|split; [|split; [|split]]]]].
  - simpl. now apply value_render.
  - simpl. apply value_render. unfold linked in Li. congruence.
  - simpl. now apply value_Auto_setTerm.
  - cbn [SearchBarInput.step]. rewrite Input_render_truthy by assumption.
    cbn [fst]. unfold SearchBarInput.setTerm.
    cbn [SearchBarInput.base SearchBarInput.term]. split; [|reflexivity].
    apply value_render. unfold linked in Li. congruence.
  - cbn [SearchBarAutocomplete.step].
    rewrite Auto_render_truthy by assumption. cbn [fst].
    split; [|apply term_Auto_setTerm].
    apply value_Auto_setTerm; [exact La | exact Na].
  - cbn [SearchBarInput.step].
    destruct (Input_render_falsy pi fv si F) as (_ & T & B).
    now rewrite B, T.
  - cbn [SearchBarAutocomplete.step].
    destruct (Auto_render_falsy pa fv sa F) as (_ & I).
    unfold SearchBarAutocomplete.term. now rewrite I.
Qed.

Lemma external_value_overrides_local_value_witness :
  SearchBarBase.value
    (fst (SearchBarBase.step SearchBarBase.bare
            (fst (SearchBarBase.run SearchBarBase.bare
                    (SearchBarBase.mount SearchBarBase.bare (Js.str "") 0)
                    [SearchBarBase.Input (Change "abc")]))
            (SearchBarBase.Render (Js.str "xyz")))) = Js.str "xyz"
  /\ SearchBarBase.value
       (SearchBarInput.base
          (fst (SearchBarInput.step SearchBarInput.bare
                  (fst (SearchBarInput.run SearchBarInput.bare
                          (fst (SearchBarInput.mount SearchBarInput.bare
                                  Js.undefined (Js.str "") 0))
                          [SearchBarInput.Input (Change "abc")]))
                  (SearchBarInput.Context (Js.str "xyz"))))) = Js.str "xyz"
  /\ SearchBarBase.value
       (SearchBarInput.base
          (fst (SearchBarInput.step SearchBarInput.bare
                  (fst (SearchBarInput.run SearchBarInput.bare
                          (fst (SearchBarInput.mount SearchBarInput.bare
                                  Js.undefined (Js.str "") 0))
                          [SearchBarInput.Input (Change "abc")]))
                  (SearchBarInput.Render (Js.str "xyz"))))) = Js.str "xyz"
  /\ SearchBarBase.value
       (SearchBarInput.base
          (SearchBarAutocomplete.input
             (fst (SearchBarAutocomplete.step SearchBarAutocomplete.bare
                     (fst (SearchBarAutocomplete.run SearchBarAutocomplete.bare
                             (fst (SearchBarAutocomplete.mount
                                     SearchBarAutocomplete.bare
                                     Js.undefined (Js.str "") 0))
                             [SearchBarAutocomplete.Input (Change "abc")]))
                     (SearchBarAutocomplete.Render (Js.str "xyz"))))))
     = Js.str "xyz".
Proof.
  destruct (external_value_overrides_local_value
              SearchBarBase.bare
              (fst (SearchBarBase.run SearchBarBase.bare
                      (SearchBarBase.mount SearchBarBase.bare (Js.str "") 0)
                      [SearchBarBase.Input (Change "abc")]))
              (Js.str "xyz")
              SearchBarInput.bare [SearchBarInput.Input (Change "abc")]
              SearchBarAutocomplete.bare
              [SearchBarAutocomplete.Input (Change "abc")]
              Js.undefined (Js.str "") (Js.str "xyz") (Js.str "xyz")
              (Js.str "xyz") (Js.str "xyz") (Js.str "") 0)
    as (B & I & _ & (R & _) & (A & _) & _).
  - vm_compute. discriminate.
  - vm_compute. discriminate.
  - vm_compute. discriminate.
  - reflexivity.
  - vm_compute. discriminate.
  - vm_compute. discriminate.
  - reflexivity.
  - vm_compute. discriminate.
  - vm_compute. discriminate.
  - reflexivity.
  - repeat split; assumption.
Defined.

(** C5, as stated, fails: [<SearchBarInput value="abc" onChange={...} />]
    writes "abc" into the shared context when it mounts. *)
Lemma caller_onChange_does_not_stop_the_default_value :
  SearchBarInput.onChange SearchBarInput.with_onChange = true
  /\ SearchBarInput.mount SearchBarInput.with_onChange
       (Js.str "abc") (Js.str "") 0
     = ({| SearchBarInput.term := Js.str "abc";
           SearchBarInput.defaultValue := Js.str "abc";
           SearchBarInput.base :=
             {| SearchBarBase.value := Js.str "abc";
                SearchBarBase.defaultValue := Js.str "abc";
                SearchBarBase.timeout := Some 200;
                SearchBarBase.now := 0 |} |},
        [SetTerm (Js.str "abc")])
  /\ In (SetTerm (Js.str "abc"))
       (snd (SearchBarInput.mount SearchBarInput.with_onChange
               (Js.str "abc") (Js.str "") 0)).
Proof. repeat split. now left. Qed.

(** The [SearchBarInput] inside a [SearchBarAutocomplete] has a callback,
    [handleInputChange]: it hands on what [SearchBarBase] calls. *)
Lemma inner_interact
  (a : SearchBarAutocomplete.Props) (i : SearchBarInput.State) (u : Ui) :
  SearchBarInput.interact (SearchBarAutocomplete.inputProps a) i u
  = ({| SearchBarInput.term := SearchBarInput.term i;
        SearchBarInput.defaultValue := SearchBarInput.defaultValue i;
        SearchBarInput.base :=
          fst (SearchBarBase.interact (SearchBarAutocomplete.restInput a)
                 (SearchBarInput.base i) u) |},
     snd (SearchBarBase.interact (SearchBarAutocomplete.restInput a)
            (SearchBarInput.base i) u)).
Proof.
  unfold SearchBarInput.interact.
  cbn [SearchBarInput.rest SearchBarAutocomplete.inputProps].
  destruct (SearchBarBase.interact (SearchBarAutocomplete.restInput a)
              (SearchBarInput.base i) u) as [b cs].
  now rewrite deliverAll_to_caller.
Qed.

(** An event makes [SearchBarBase] call [onChange] at most once, and then
    it calls nothing else. *)
Lemma onChange_call_is_alone
  (p : SearchBarBase.Props) (s : SearchBarBase.State) (u : Ui) (w : Js.value) :
  In (OnChange w) (snd (SearchBarBase.interact p s u)) ->
  snd (SearchBarBase.interact p s u) = [OnChange w].
Proof.
  destruct u as [text|key| |dt]; simpl; intro H.
  - destruct H.
  - unfold SearchBarBase.handleKeyDown in H.
    destruct (SearchBarBase.onKeyDown p),
      (SearchBarBase.onSubmit p && String.eqb key "Enter");
      simpl in H; intuition discriminate.
  - destruct (SearchBarBase.hasClearButton p); [|destruct H].
    unfold SearchBarBase.handleClear in *. destruct H as [H|[]].
    now injection H as <-.
  - destruct (elapse_at_most_once dt s) as [E|E]; rewrite E in *.
    + destruct H.
    + destruct H as [H|[]]. now injection H as <-.
Qed.

Lemma Auto_deliverAll_to_context
  (b : SearchBarAutocomplete.Props) (cs : list Call) :
  SearchBarAutocomplete.onInputChange b = false ->
  forall st c,
    In c (snd (SearchBarAutocomplete.deliverAll b st cs))
    <-> In c (map toContext cs).
Proof.
  intro H. induction cs as [|c0 cs IH]; intros st c; simpl; [tauto|].
  destruct (SearchBarAutocomplete.deliver b st c0) as [st1 out1] eqn:E.
  specialize (IH st1 c).
  destruct (SearchBarAutocomplete.deliverAll b st1 cs) as [st2 out2].
  simpl in *. rewrite in_app_iff, IH.
  assert (O : In c out1 <-> toContext c0 = c).
  { destruct c0; simpl in E;
      try (injection E as <- <-; simpl; intuition congruence).
    unfold SearchBarAutocomplete.handleInputChange in E. rewrite H in E.
    pose proof (Auto_setTerm_echo b v st c) as Echo.
    destruct (SearchBarAutocomplete.setTerm b v st) as [st' out'].
    injection E as <- <-. simpl in *. split.
    - intros [X|X]; [exact X | symmetry; now apply Echo].
    - intro X. now left. }
  tauto.
Qed.

(** C5, amended.  With a callback of the caller ([p], [a]), whatever the
    user and the clock do, the calls of [SearchBarBase] reach the caller as
    they are and the term of the context is left as it was.  Without one
    ([q], [b]), a value that [SearchBarBase] commits goes to [setTerm]
    instead and is the term afterwards; under [SearchBarAutocomplete] the
    [SearchBarInput] inside may write the same value once more.  With or
    without a callback, a truthy default value is written to the context:
    at the mount of both components, where the [SearchBarInput] inside a
    [SearchBarAutocomplete] first writes back a truthy term that it read,
    and at a later render of [SearchBarInput] with another [value]. *)
Theorem caller_onChange_takes_the_committed_values
  (p q : SearchBarInput.Props) (a b : SearchBarAutocomplete.Props)
  (st : SearchBarInput.State) (sa : SearchBarAutocomplete.State) (u : Ui)
  (v term0 : Js.value) (t : N) :
  SearchBarInput.onChange p = true ->
  SearchBarInput.onChange q = false ->
  SearchBarAutocomplete.onInputChange a = true ->
  SearchBarAutocomplete.onInputChange b = false ->
  snd (SearchBarInput.interact p st u)
  = snd (SearchBarBase.interact (SearchBarInput.rest p)
           (SearchBarInput.base st) u)
  /\ SearchBarInput.term (fst (SearchBarInput.interact p st u))
     = SearchBarInput.term st
  /\ snd (SearchBarAutocomplete.interact a sa u)
     = snd (SearchBarBase.interact (SearchBarAutocomplete.restInput a)
              (SearchBarInput.base (SearchBarAutocomplete.input sa)) u)
  /\ SearchBarAutocomplete.term (fst (SearchBarAutocomplete.interact a sa u))
     = SearchBarAutocomplete.term sa
  /\ snd (SearchBarInput.interact q st u)
     = map toContext
         (snd (SearchBarBase.interact (SearchBarInput.rest q)
                 (SearchBarInput.base st) u))
  /\ snd (SearchBarInput.mount p v term0 t)
     = (if Js.truthy v then [SetTerm v] else [])
  /\ (forall w,
        In (OnChange w)
          (snd (SearchBarBase.interact (SearchBarInput.rest q)
                  (SearchBarInput.base st) u)) ->
        SearchBarInput.term (fst (SearchBarInput.interact q st u)) = w)
  /\ (forall c,
        In c (snd (SearchBarAutocomplete.interact b sa u))
        <-> In c (map toContext
                    (snd (SearchBarBase.interact
                            (SearchBarAutocomplete.restInput b)
                            (SearchBarInput.base
                               (SearchBarAutocomplete.input sa)) u))))
  /\ (forall w,
        In (OnChange w)
          (snd (SearchBarBase.interact (SearchBarAutocomplete.restInput b)
                  (SearchBarInput.base (SearchBarAutocomplete.input sa)) u)) ->
        SearchBarAutocomplete.term
          (fst (SearchBarAutocomplete.interact b sa u)) = w)
  /\ (forall c : SearchBarAutocomplete.Props,
        snd (SearchBarAutocomplete.mount c v term0 t)
        = (if Js.truthy term0 then [SetTerm term0] else [])
            ++ (if Js.truthy v
                then SetTerm v
                       :: (if Js.strict_eqb (Js.default_to (Js.str "") term0) v
                           then [] else [SetTerm v])
                else []))
  /\ snd (SearchBarInput.step p st (SearchBarInput.Render v))
     = (if Js.strict_eqb (SearchBarInput.defaultValue st)
             (Js.default_to (Js.str "") v)
        then []
        else if Js.truthy v then [SetTerm v] else []).
Proof.
  intros Hp Hq Ha Hb.
  assert (Ip : forall st',
    SearchBarInput.interact p st' u
    = ({| SearchBarInput.term := SearchBarInput.term st';
          SearchBarInput.defaultValue := SearchBarInput.defaultValue st';
          SearchBarInput.base :=
            fst (SearchBarBase.interact (SearchBarInput.rest p)
                   (SearchBarInput.base st') u) |},
       snd (SearchBarBase.interact (SearchBarInput.rest p)
              (SearchBarInput.base st') u))).
  { intro st'. unfold SearchBarInput.interact.
    destruct (SearchBarBase.interact (SearchBarInput.rest p)
                (SearchBarInput.base st') u) as [b' cs].
    now rewrite deliverAll_to_caller. }
  split; [now rewrite Ip|]. split; [now rewrite Ip|].
  split; [unfold SearchBarAutocomplete.interact; rewrite inner_interact;
          now rewrite deliverAll_Auto_to_caller|].
  split; [unfold SearchBarAutocomplete.interact; rewrite inner_interact;
          now rewrite deliverAll_Auto_to_caller|].
  split.
  { unfold SearchBarInput.interact.
    destruct (SearchBarBase.interact (SearchBarInput.rest q)
                (SearchBarInput.base st) u) as [b' cs].
    now apply deliverAll_to_context. }
  split.
  { unfold SearchBarInput.mount, SearchBarInput.useSearchBarState. simpl.
    rewrite truthy_default_to.
    destruct (Js.truthy v) eqn:T; [|reflexivity]. simpl.
    destruct v; [discriminate | reflexivity]. }
  split.
  { intros w H. apply onChange_call_is_alone in H.
    unfold SearchBarInput.interact.
    destruct (SearchBarBase.interact (SearchBarInput.rest q)
                (SearchBarInput.base st) u) as [b' cs].
    cbn [snd] in H. subst cs. cbn [SearchBarInput.deliverAll
      SearchBarInput.deliver]. unfold SearchBarInput.handleChange.
    now rewrite Hq. }
  split.
  { intro c. unfold SearchBarAutocomplete.interact. rewrite inner_interact.
    now apply Auto_deliverAll_to_context. }
  split.
  { intros w H. apply onChange_call_is_alone in H.
    unfold SearchBarAutocomplete.interact. rewrite inner_interact, H.
    cbn [SearchBarAutocomplete.deliverAll SearchBarAutocomplete.deliver].
    unfold SearchBarAutocomplete.handleInputChange. rewrite Hb.
    match goal with
    | |- context [SearchBarAutocomplete.setTerm b w ?s] =>
        pose proof (term_Auto_setTerm b w s) as T;
        destruct (SearchBarAutocomplete.setTerm b w s) as [s1 o1]
    end.
    exact T. }
  split.
  { intro c. unfold SearchBarAutocomplete.mount.
    rewrite Input_mount_with_the_term.
    unfold SearchBarAutocomplete.useSearchBarState.
    cbn [SearchBarAutocomplete.defaultInputValue].
    destruct (Js.truthy v) eqn:T; [|reflexivity].
    destruct v as [|d]; [discriminate|]. cbn [Js.String].
    unfold SearchBarAutocomplete.setTerm, SearchBarInput.render.
    cbn [SearchBarAutocomplete.input SearchBarInput.setTerm
         SearchBarInput.defaultValue Js.default_to].
    destruct (Js.strict_eqb (Js.default_to (Js.str "") term0) (Js.str d));
      [reflexivity|].
    unfold SearchBarInput.useSearchBarState.
    cbn [SearchBarInput.defaultValue Js.String]. now rewrite T. }
  { cbn [SearchBarInput.step]. unfold SearchBarInput.render.
    destruct (Js.strict_eqb (SearchBarInput.defaultValue st)
                (Js.default_to (Js.str "") v)); [reflexivity|].
    unfold SearchBarInput.useSearchBarState.
    cbn [SearchBarInput.defaultValue]. rewrite truthy_default_to.
    destruct (Js.truthy v) eqn:T; [|reflexivity].
    destruct v; [discriminate | reflexivity]. }
Qed.

Lemma caller_onChange_takes_the_committed_values_witness :
  snd (SearchBarInput.interact SearchBarInput.with_onChange
         (fst (SearchBarInput.run SearchBarInput.with_onChange
                 (fst (SearchBarInput.mount SearchBarInput.with_onChange
                         Js.undefined (Js.str "") 0))
                 [SearchBarInput.Input (Change "abc")]))
         (Elapse 200))
  = [OnChange (Js.str "abc")]
  /\ snd (SearchBarInput.interact SearchBarInput.bare
            (fst (SearchBarInput.run SearchBarInput.with_onChange
                    (fst (SearchBarInput.mount SearchBarInput.with_onChange
                            Js.undefined (Js.str "") 0))
                    [SearchBarInput.Input (Change "abc")]))
            (Elapse 200))
     = [SetTerm (Js.str "abc")].
Proof.
  destruct (caller_onChange_takes_the_committed_values
              SearchBarInput.with_onChange SearchBarInput.bare
              SearchBarAutocomplete.with_onChange SearchBarAutocomplete.bare
              (fst (SearchBarInput.run SearchBarInput.with_onChange
                      (fst (SearchBarInput.mount SearchBarInput.with_onChange
                              Js.undefined (Js.str "") 0))
                      [SearchBarInput.Input (Change "abc")]))
              (fst (SearchBarAutocomplete.mount
                      SearchBarAutocomplete.with_onChange
                      Js.undefined (Js.str "") 0))
              (Elapse 200) Js.undefined (Js.str "") 0)
    as (C & _ & _ & _ & W & _).
  - reflexivity.
  - reflexivity.
  - reflexivity.
  - reflexivity.
  - split; [exact C | exact W].
Defined.

(** C10. A default value that is [undefined] or the empty string is not
    written to the context: the mount of [SearchBarInput] and any later
    render of it with such a [value] call [setTerm] not at all and leave
    the term as it was, and so does a render of [SearchBarAutocomplete];
    the mount of [SearchBarAutocomplete] leaves the term as it was, the
    [SearchBarInput] inside writing back the term it has read.  The mount
    of [SearchBarInput] calls [setTerm] only for a truthy default. *)
Theorem falsy_default_value_is_not_written
  (pi : SearchBarInput.Props) (si : SearchBarInput.State)
  (pa : SearchBarAutocomplete.Props) (sa : SearchBarAutocomplete.State)
  (v term0 : Js.value) (t : N) :
  v = Js.undefined \/ v = Js.str "" ->
  (snd (SearchBarInput.mount pi v term0 t) = []
   /\ SearchBarInput.term (fst (SearchBarInput.mount pi v term0 t)) = term0)
  /\ (snd (SearchBarInput.step pi si (SearchBarInput.Render v)) = []
      /\ SearchBarInput.term
           (fst (SearchBarInput.step pi si (SearchBarInput.Render v)))
         = SearchBarInput.term si)
  /\ (snd (SearchBarAutocomplete.mount pa v term0 t)
      = (if Js.truthy term0 then [SetTerm term0] else [])
      /\ SearchBarAutocomplete.term
           (fst (SearchBarAutocomplete.mount pa v term0 t)) = term0)
  /\ (snd (SearchBarAutocomplete.step pa sa (SearchBarAutocomplete.Render v))
      = []
      /\ SearchBarAutocomplete.term
           (fst (SearchBarAutocomplete.step pa sa
                   (SearchBarAutocomplete.Render v)))
         = SearchBarAutocomplete.term sa)
  /\ (forall w,
        (exists x, In (SetTerm x) (snd (SearchBarInput.mount pi w term0 t)))
        <-> Js.truthy w = true).
Proof.
  intro Hv.
  assert (F : Js.truthy v = false) by (destruct Hv as [-> | ->]; reflexivity).
  assert (D : Js.default_to (Js.str "") v = Js.str "")
    by (destruct Hv as [-> | ->]; reflexivity).
  split; [|split; [|split; [|split]]].
  - unfold SearchBarInput.mount, SearchBarInput.useSearchBarState. simpl.
    rewrite D. simpl. now split.
  - simpl. unfold SearchBarInput.render. rewrite D.
    destruct (Js.strict_eqb (SearchBarInput.defaultValue si) (Js.str ""));
      now split.
  - unfold SearchBarAutocomplete.mount, SearchBarAutocomplete.useSearchBarState.
    unfold SearchBarInput.mount, SearchBarInput.useSearchBarState. simpl.
    rewrite truthy_default_to, F.
    destruct (Js.truthy term0) eqn:T; simpl.
    + destruct term0 as [|s]; [discriminate|]. simpl. now split.
    + now split.
  - simpl. unfold SearchBarAutocomplete.render.
    destruct (Js.strict_eqb (SearchBarAutocomplete.defaultInputValue sa) v);
      [now split|].
    unfold SearchBarAutocomplete.useSearchBarState. simpl. rewrite F.
    now split.
  - intro w.
    unfold SearchBarInput.mount, SearchBarInput.useSearchBarState. simpl.
    rewrite truthy_default_to.
    destruct (Js.truthy w); simpl; split.
    + reflexivity.
    + intros _. eexists. left. reflexivity.
    + intros [x []].
    + discriminate.
Qed.

Lemma falsy_default_value_is_not_written_witness :
  SearchBarInput.mount SearchBarInput.bare (Js.str "") (Js.str "dogs") 0
  = ({| SearchBarInput.term := Js.str "dogs";
        SearchBarInput.defaultValue := Js.str "";
        SearchBarInput.base :=
          SearchBarBase.mount SearchBarBase.bare (Js.str "dogs") 0 |}, [])
  /\ snd (SearchBarAutocomplete.mount SearchBarAutocomplete.bare
            (Js.str "") (Js.str "dogs") 0)
     = [SetTerm (Js.str "dogs")].
Proof.
  destruct (falsy_default_value_is_not_written
              SearchBarInput.bare
              (fst (SearchBarInput.mount SearchBarInput.bare
                      (Js.str "") (Js.str "dogs") 0))
              SearchBarAutocomplete.bare
              (fst (SearchBarAutocomplete.mount SearchBarAutocomplete.bare
                      (Js.str "") (Js.str "dogs") 0))
              (Js.str "") (Js.str "dogs") 0)
    as ((C & T) & _ & (A & _) & _).
  - right. reflexivity.
  - split; [reflexivity | exact A].
Defined.

(** * Further properties of SearchBarBase *)

(** X1. With no event at all, the mount alone makes [onChange] run: the value
    that the component was mounted with comes back to the caller once the
    debounce time is over, and not before. *)
Theorem mount_announces_the_initial_value
  (p : SearchBarBase.Props) (v : Js.value) (t dt : N) :
  snd (SearchBarBase.step p (SearchBarBase.mount p v t)
         (SearchBarBase.Input (Elapse dt)))
  = (if SearchBarBase.ms p <=? dt then [OnChange v] else []).
Proof.
  rewrite mount_state. simpl. unfold SearchBarBase.elapse. simpl.
  destruct (SearchBarBase.ms p <=? dt) eqn:E.
  - apply N.leb_le in E.
    assert (L : (t + SearchBarBase.ms p <=? t + dt) = true)
      by (apply N.leb_le; lia).
    now rewrite L.
  - apply N.leb_gt in E.
    assert (L : (t + SearchBarBase.ms p <=? t + dt) = false)
      by (apply N.leb_gt; lia).
    now rewrite L.
Qed.

(** What the input holds after the keystrokes [ks]. *)
Lemma brisk_typing (p : SearchBarBase.Props) (ks : list Keystroke) :
  forall s,
    calm p s = true -> brisk p ks = true ->
    edits (SearchBarBase.value s) ks = true ->
    let s' := fst (SearchBarBase.run p s (typing ks)) in
    snd (SearchBarBase.run p s (typing ks)) = []
    /\ calm p s' = true
    /\ SearchBarBase.value s'
       = fold_left (fun _ k => Js.str (text k)) ks (SearchBarBase.value s)
    /\ (ks <> [] ->
        SearchBarBase.timeout s'
        = Some (SearchBarBase.now s' + SearchBarBase.ms p)).
Proof.
  induction ks as [|k ks IH]; intros s Hc Hb He; simpl.
  - repeat split; [exact Hc | congruence].
  - simpl in Hb, He. apply andb_prop in Hb as [Hk Hb].
    apply andb_prop in He as [Hv He]. apply N.ltb_lt in Hk.
    apply negb_true_iff, strict_eqb_neq in Hv.
    assert (E : SearchBarBase.elapse (after k) s =
      ({| SearchBarBase.value := SearchBarBase.value s;
          SearchBarBase.defaultValue := SearchBarBase.defaultValue s;
          SearchBarBase.timeout := SearchBarBase.timeout s;
          SearchBarBase.now := SearchBarBase.now s + after k |}, [])).
    { unfold calm in Hc. unfold SearchBarBase.elapse.
      destruct (SearchBarBase.timeout s) as [due|]; [|reflexivity].
      apply N.leb_le in Hc.
      assert (L : (due <=? SearchBarBase.now s + after k) = false)
        by (apply N.leb_gt; lia).
      now rewrite L. }
    rewrite E. unfold SearchBarBase.handleChange.
    rewrite setValue_changed by (simpl; exact Hv). simpl.
    set (s1 := {| SearchBarBase.value := Js.str (text k);
                  SearchBarBase.defaultValue := SearchBarBase.defaultValue s;
                  SearchBarBase.timeout :=
                    Some (SearchBarBase.now s + after k + SearchBarBase.ms p);
                  SearchBarBase.now := SearchBarBase.now s + after k |}).
    assert (Hc1 : calm p s1 = true)
      by (unfold calm; simpl; apply N.leb_refl).
    specialize (IH s1 Hc1 Hb He). simpl in IH.
    destruct IH as (Hout & Hcalm & Hval & Htime).
    destruct (SearchBarBase.run p s1 (typing ks)) as [s2 out2] eqn:R.
    simpl in *. repeat split; try assumption.
    intros _. destruct ks as [|k' ks'].
    + simpl in R. injection R as <- <-. reflexivity.
    + apply Htime. discriminate.
Qed.

(** X2. A burst of typing: keystrokes that each change the text and that each
    come before the debounce time is over, from a state in which no timer
    is due earlier than that.  Nothing reaches [onChange] while the burst
    lasts, however long it is; the quiet after it delivers the last text,
    and no other. *)
Theorem burst_of_typing_delivers_its_last_text_only
  (p : SearchBarBase.Props) (s : SearchBarBase.State)
  (ks : list Keystroke) (k : Keystroke) (quiet : N) :
  calm p s = true ->
  brisk p (ks ++ [k]) = true ->
  edits (SearchBarBase.value s) (ks ++ [k]) = true ->
  SearchBarBase.ms p <= quiet ->
  snd (SearchBarBase.run p s (typing (ks ++ [k]))) = []
  /\ snd (SearchBarBase.run p s
            (typing (ks ++ [k]) ++ [SearchBarBase.Input (Elapse quiet)]))
     = [OnChange (Js.str (text k))].
Proof.
  intros Hc Hb He Hq.
  destruct (brisk_typing p (ks ++ [k]) s Hc Hb He) as (Hout & _ & Hval & Htime).
  split; [exact Hout|].
  rewrite run_app.
  destruct (SearchBarBase.run p s (typing (ks ++ [k]))) as [s1 out1].
  simpl in *. subst out1.
  rewrite fold_left_app in Hval. simpl in Hval.
  assert (T : SearchBarBase.timeout s1
              = Some (SearchBarBase.now s1 + SearchBarBase.ms p))
    by (apply Htime; destruct ks; discriminate).
  rewrite (elapse_due quiet _ s1 T) by lia. simpl. now rewrite Hval.
Qed.

Lemma burst_of_typing_delivers_its_last_text_only_witness :
  snd (SearchBarBase.run SearchBarBase.bare
         (SearchBarBase.mount SearchBarBase.bare (Js.str "") 0)
         (typing (cat ++ [cat_last])))
  = []
  /\ snd (SearchBarBase.run SearchBarBase.bare
            (SearchBarBase.mount SearchBarBase.bare (Js.str "") 0)
            (typing (cat ++ [cat_last])
               ++ [SearchBarBase.Input (Elapse 1000)]))
     = [OnChange (Js.str "cat")].
Proof.
  apply (burst_of_typing_delivers_its_last_text_only
           SearchBarBase.bare
           (SearchBarBase.mount SearchBarBase.bare (Js.str "") 0)
           cat cat_last 1000).
  - vm_compute. reflexivity.
  - vm_compute. reflexivity.
  - vm_compute. reflexivity.
  - vm_compute. discriminate.
Defined.

(** X3. A [value] prop that is neither the prop of the render before nor what
    the input holds is echoed: the render takes it as the local value and
    arms the timer, and the quiet after it hands the prop back to
    [onChange]. *)
Theorem new_value_prop_is_echoed_to_onChange
  (p : SearchBarBase.Props) (s : SearchBarBase.State) (v : Js.value)
  (quiet : N) :
  v <> SearchBarBase.defaultValue s ->
  v <> SearchBarBase.value s ->
  SearchBarBase.ms p <= quiet ->
  SearchBarBase.run p s
    [SearchBarBase.Render v; SearchBarBase.Input (Elapse quiet)]
  = ({| SearchBarBase.value := v;
        SearchBarBase.defaultValue := v;
        SearchBarBase.timeout := None;
        SearchBarBase.now := SearchBarBase.now s + quiet |},
     [OnChange v]).
Proof.
  intros Hd Hv Hq. simpl. unfold SearchBarBase.render.
  assert (E : Js.strict_eqb (SearchBarBase.defaultValue s) v = false)
    by (apply strict_eqb_neq; congruence).
  rewrite E. unfold SearchBarBase.syncDefaultValue. simpl.
  assert (E' : Js.strict_eqb (SearchBarBase.value s) v = false)
    by (apply strict_eqb_neq; congruence).
  rewrite E'. simpl.
  rewrite setValue_changed by (simpl; congruence). simpl.
  erewrite elapse_due; simpl; [reflexivity | reflexivity | lia].
Qed.

Lemma new_value_prop_is_echoed_to_onChange_witness :
  SearchBarBase.run SearchBarBase.bare
    (SearchBarBase.mount SearchBarBase.bare (Js.str "") 0)
    [SearchBarBase.Render (Js.str "dogs"); SearchBarBase.Input (Elapse 200)]
  = ({| SearchBarBase.value := Js.str "dogs";
        SearchBarBase.defaultValue := Js.str "dogs";
        SearchBarBase.timeout := None;
        SearchBarBase.now := 200 |},
     [OnChange (Js.str "dogs")]).
Proof.
  apply (new_value_prop_is_echoed_to_onChange
           SearchBarBase.bare
           (SearchBarBase.mount SearchBarBase.bare (Js.str "") 0)
           (Js.str "dogs") 200).
  - vm_compute. discriminate.
  - vm_compute. discriminate.
  - vm_compute. discriminate.
Defined.

(** A [value] prop that catches up with what the input holds changes
    nothing but the prop remembered: the timer is left as it is. *)
Lemma render_with_the_local_value
  (p : SearchBarBase.Props) (s : SearchBarBase.State) :
  SearchBarBase.render p (SearchBarBase.value s) s
  = {| SearchBarBase.value := SearchBarBase.value s;
       SearchBarBase.defaultValue := SearchBarBase.value s;
       SearchBarBase.timeout := SearchBarBase.timeout s;
       SearchBarBase.now := SearchBarBase.now s |}.
Proof.
  unfold SearchBarBase.render.
  destruct (Js.strict_eqb (SearchBarBase.defaultValue s) (SearchBarBase.value s))
    eqn:E.
  - apply strict_eqb_eq in E. destruct s; simpl in *. now subst.
  - unfold SearchBarBase.syncDefaultValue, SearchBarBase.setValue. simpl.
    repeat (rewrite strict_eqb_refl; simpl). reflexivity.
Qed.

Lemma value_render_cases
  (p : SearchBarBase.Props) (v : Js.value) (s : SearchBarBase.State) :
  SearchBarBase.value (SearchBarBase.render p v s) = SearchBarBase.value s
  \/ SearchBarBase.value (SearchBarBase.render p v s) = v.
Proof.
  unfold SearchBarBase.render.
  destruct (Js.strict_eqb (SearchBarBase.defaultValue s) v); [now left|].
  right. now rewrite value_syncDefaultValue.
Qed.

Lemma value_step_cases
  (p : SearchBarBase.Props) (s : SearchBarBase.State) (e : SearchBarBase.Event) :
  SearchBarBase.value (fst (SearchBarBase.step p s e)) = SearchBarBase.value s
  \/ (exists text,
        e = SearchBarBase.Input (Change text)
        /\ SearchBarBase.value (fst (SearchBarBase.step p s e)) = Js.str text)
  \/ e = SearchBarBase.Render (SearchBarBase.value (fst (SearchBarBase.step p s e))).
Proof.
  destruct e as [[text|key| |dt]|v]; simpl.
  - right. left. exists text. split; [reflexivity|].
    unfold SearchBarBase.handleChange. apply value_setValue.
  - now left.
  - now left.
  - left. apply value_elapse.
  - destruct (value_render_cases p v s) as [H|H]; [now left|].
    right. right. now rewrite H.
Qed.

Lemma onChange_of_step
  (p : SearchBarBase.Props) (s : SearchBarBase.State) (e : SearchBarBase.Event)
  (v : Js.value) :
  In (OnChange v) (snd (SearchBarBase.step p s e)) ->
  v = SearchBarBase.value s
  \/ (v = Js.str "" /\ e = SearchBarBase.Input ClickClear
      /\ SearchBarBase.hasClearButton p = true).
Proof.
  destruct e as [[text|key| |dt]|w]; simpl; intro H.
  - destruct H.
  - unfold SearchBarBase.handleKeyDown in H.
    destruct (SearchBarBase.onKeyDown p),
      (SearchBarBase.onSubmit p && String.eqb key "Enter");
      simpl in H; intuition discriminate.
  - destruct (SearchBarBase.hasClearButton p); [|destruct H].
    unfold SearchBarBase.handleClear in H. destruct H as [H|[]].
    injection H as <-. right. repeat split.
  - destruct (elapse_at_most_once dt s) as [E|E]; rewrite E in H.
    + destruct H.
    + destruct H as [H|[]]. injection H as <-. now left.
  - destruct H.
Qed.

(** X4. [onChange] never receives a value of the component's own making: what
    it is called with is the local value at the start, a text that was
    typed, a [value] prop that was rendered, or the empty string of a click
    on a "Clear" button that is there. *)
Theorem onChange_values_have_a_source
  (p : SearchBarBase.Props) (es : list SearchBarBase.Event)
  (s : SearchBarBase.State) (v : Js.value) :
  In (OnChange v) (snd (SearchBarBase.run p s es)) ->
  v = SearchBarBase.value s
  \/ (exists text, In (SearchBarBase.Input (Change text)) es /\ v = Js.str text)
  \/ In (SearchBarBase.Render v) es
  \/ (v = Js.str "" /\ In (SearchBarBase.Input ClickClear) es
      /\ SearchBarBase.hasClearButton p = true).
Proof.
  revert s. induction es as [|e es IH]; intros s H; simpl in H; [destruct H|].
  pose proof (value_step_cases p s e) as V.
  pose proof (onChange_of_step p s e v) as C.
  destruct (SearchBarBase.step p s e) as [s1 out1].
  specialize (IH s1). destruct (SearchBarBase.run p s1 es) as [s2 out2].
  simpl in *. apply in_app_or in H. destruct H as [H|H].
  - destruct (C H) as [-> | (-> & -> & B)]; [now left|].
    right. right. right. repeat split; [now left | exact B].
  - destruct (IH H) as [E | [(text & I & E) | [I | (E & I & B)]]].
    + destruct V as [V | [(text & -> & V) | V]].
      * left. congruence.
      * right. left. exists text. split; [now left | congruence].
      * right. right. left. left. congruence.
    + right. left. exists text. split; [now right | exact E].
    + right. right. left. now right.
    + right. right. right. repeat split; [exact E | now right | exact B].
Qed.

Lemma onChange_values_have_a_source_witness :
  Js.str "ab" = Js.str ""
  \/ (exists text,
        In (SearchBarBase.Input (Change text))
          [SearchBarBase.Input (Change "ab"); SearchBarBase.Input (Elapse 200)]
        /\ Js.str "ab" = Js.str text)
  \/ In (SearchBarBase.Render (Js.str "ab"))
       [SearchBarBase.Input (Change "ab"); SearchBarBase.Input (Elapse 200)]
  \/ (Js.str "ab" = Js.str ""
      /\ In (SearchBarBase.Input ClickClear)
           [SearchBarBase.Input (Change "ab"); SearchBarBase.Input (Elapse 200)]
      /\ SearchBarBase.hasClearButton SearchBarBase.bare = true).
Proof.
  apply (onChange_values_have_a_source
           SearchBarBase.bare
           [SearchBarBase.Input (Change "ab"); SearchBarBase.Input (Elapse 200)]
           (SearchBarBase.mount SearchBarBase.bare (Js.str "") 0)
           (Js.str "ab")).
  vm_compute. left. reflexivity.
Defined.

Lemma timely_setValue
  (p : SearchBarBase.Props) (v : Js.value) (s : SearchBarBase.State) :
  timely p s -> timely p (SearchBarBase.setValue p v s).
Proof.
  intro T. unfold SearchBarBase.setValue.
  destruct (Js.strict_eqb (SearchBarBase.value s) v); [exact T|].
  intros due H. simpl in *. injection H as <-. lia.
Qed.

Lemma timely_render
  (p : SearchBarBase.Props) (v : Js.value) (s : SearchBarBase.State) :
  timely p s -> timely p (SearchBarBase.render p v s).
Proof.
  intro T. unfold SearchBarBase.render.
  destruct (Js.strict_eqb (SearchBarBase.defaultValue s) v); [exact T|].
  unfold SearchBarBase.syncDefaultValue. apply timely_setValue. exact T.
Qed.

Lemma timely_interact
  (p : SearchBarBase.Props) (s : SearchBarBase.State) (u : Ui) :
  timely p s -> timely p (fst (SearchBarBase.interact p s u)).
Proof.
  intro T. destruct u as [text|key| |dt]; simpl; try exact T.
  - now apply timely_setValue.
  - unfold SearchBarBase.elapse.
    destruct (SearchBarBase.timeout s) as [due|] eqn:E.
    + destruct (due <=? SearchBarBase.now s + dt); intros d H; simpl in *;
        [discriminate|]. injection H as <-. specialize (T due E). lia.
    + intros d H. discriminate.
Qed.

Lemma timely_run
  (p : SearchBarBase.Props) (es : list SearchBarBase.Event)
  (s : SearchBarBase.State) :
  timely p s -> timely p (fst (SearchBarBase.run p s es)).
Proof.
  revert s. induction es as [|e es IH]; intros s T; simpl; [exact T|].
  assert (T1 : timely p (fst (SearchBarBase.step p s e))).
  { destruct e as [u|v]; simpl; [now apply timely_interact|now apply timely_render]. }
  destruct (SearchBarBase.step p s e) as [s1 out1]. specialize (IH s1 T1).
  now destruct (SearchBarBase.run p s1 es).
Qed.

Lemma timely_mount (p : SearchBarBase.Props) (v : Js.value) (t : N) :
  timely p (SearchBarBase.mount p v t).
Proof.
  rewrite mount_state. intros due H. simpl in *. injection H as <-. lia.
Qed.

Lemma timely_settles
  (p : SearchBarBase.Props) (s : SearchBarBase.State) (dt : N) :
  timely p s -> SearchBarBase.ms p <= dt ->
  SearchBarBase.timeout (fst (SearchBarBase.elapse dt s)) = None.
Proof.
  intros T H. unfold SearchBarBase.elapse.
  destruct (SearchBarBase.timeout s) as [due|] eqn:E; [|reflexivity].
  specialize (T due E).
  assert (L : (due <=? SearchBarBase.now s + dt) = true)
    by (apply N.leb_le; lia).
  now rewrite L.
Qed.

(** X5. Whatever was typed, clicked and rendered since the mount, a quiet of
    the debounce time leaves no call pending: the component is idle after
    it, and stays silent until the next event. *)
Theorem quiet_for_the_debounce_time_settles
  (p : SearchBarBase.Props) (v : Js.value) (t : N)
  (es : list SearchBarBase.Event) (quiet later : N) :
  SearchBarBase.ms p <= quiet ->
  let s := fst (SearchBarBase.run p (SearchBarBase.mount p v t) es) in
  let s' := fst (SearchBarBase.step p s (SearchBarBase.Input (Elapse quiet))) in
  SearchBarBase.timeout s' = None
  /\ snd (SearchBarBase.step p s' (SearchBarBase.Input (Elapse later))) = [].
Proof.
  intros H s s'.
  assert (T : SearchBarBase.timeout s' = None).
  { subst s'. simpl. apply (timely_settles p); [|exact H].
    apply timely_run, timely_mount. }
  split; [exact T|]. simpl. now apply elapse_idle.
Qed.

Lemma quiet_for_the_debounce_time_settles_witness :
  SearchBarBase.timeout
    (fst (SearchBarBase.step SearchBarBase.bare
            (fst (SearchBarBase.run SearchBarBase.bare
                    (SearchBarBase.mount SearchBarBase.bare (Js.str "") 0)
                    [SearchBarBase.Input (Change "a");
                     SearchBarBase.Render (Js.str "b")]))
            (SearchBarBase.Input (Elapse 200))))
  = None.
Proof.
  destruct (quiet_for_the_debounce_time_settles
              SearchBarBase.bare (Js.str "") 0
              [SearchBarBase.Input (Change "a");
               SearchBarBase.Render (Js.str "b")] 200 0) as [T _].
  - vm_compute. discriminate.
  - exact T.
Defined.

(** * Further properties of SearchBarInput and SearchBarAutocomplete *)

Section InputMore.

Import SearchBarInput.
Variable p : Props.

Lemma is_string_render (v : Js.value) (b : SearchBarBase.State) :
  is_string v = true -> is_string (SearchBarBase.value b) = true ->
  is_string (SearchBarBase.value (SearchBarBase.render (rest p) v b)) = true.
Proof.
  intros Hv Hb.
  destruct (value_render_cases (rest p) v b) as [-> | ->]; assumption.
Qed.

Lemma stringy_setTerm (v : Js.value) (st : State) :
  is_string v = true -> stringy st -> stringy (setTerm p v st).
Proof.
  intros Hv [_ Hb]. split; simpl; [exact Hv | now apply is_string_render].
Qed.

Lemma stringy_useSearchBarState (st : State) :
  stringy st ->
  stringy (fst (useSearchBarState p st))
  /\ forallb hands_a_string (snd (useSearchBarState p st)) = true.
Proof.
  intro S. unfold useSearchBarState.
  destruct (Js.truthy (defaultValue st)); simpl; [|now split].
  split; [|reflexivity]. now apply stringy_setTerm.
Qed.

Lemma stringy_deliverAll (cs : list Call) (st : State) :
  forallb hands_a_string cs = true -> stringy st ->
  stringy (fst (deliverAll p st cs))
  /\ forallb hands_a_string (snd (deliverAll p st cs)) = true.
Proof.
  revert st. induction cs as [|c cs IH]; intros st Hcs S; simpl;
    [now split|].
  simpl in Hcs. apply andb_prop in Hcs as [Hc Hcs].
  assert (D : stringy (fst (deliver p st c))
              /\ forallb hands_a_string (snd (deliver p st c)) = true).
  { destruct c; simpl in *; try (split; [exact S | now rewrite ?Hc]).
    unfold handleChange. destruct (onChange p); simpl.
    - split; [exact S | now rewrite Hc].
    - split; [now apply stringy_setTerm | now rewrite Hc]. }
  destruct (deliver p st c) as [st1 out1]. destruct D as [S1 O1].
  specialize (IH st1 Hcs S1). destruct (deliverAll p st1 cs) as [st2 out2].
  simpl in *. destruct IH as [S2 O2]. split; [exact S2|].
  rewrite forallb_app. now rewrite O1, O2.
Qed.

Lemma stringy_interact (st : State) (u : Ui) :
  stringy st ->
  stringy (fst (interact p st u))
  /\ forallb hands_a_string (snd (interact p st u)) = true.
Proof.
  intros [St Sb]. unfold interact.
  assert (B : is_string (SearchBarBase.value
                           (fst (SearchBarBase.interact (rest p) (base st) u)))
              = true
              /\ forallb hands_a_string
                   (snd (SearchBarBase.interact (rest p) (base st) u)) = true).
  { destruct u as [text|key| |dt]; simpl.
    - split; [|reflexivity]. unfold SearchBarBase.handleChange.
      now rewrite value_setValue.
    - split; [exact Sb|]. unfold SearchBarBase.handleKeyDown.
      now destruct (SearchBarBase.onKeyDown (rest p)),
        (SearchBarBase.onSubmit (rest p) && String.eqb key "Enter").
    - split; [exact Sb|]. now destruct (SearchBarBase.hasClearButton (rest p)).
    - split; [now rewrite value_elapse|].
      destruct (elapse_at_most_once dt (base st)) as [-> | ->]; simpl;
        [reflexivity | now rewrite Sb]. }
  destruct (SearchBarBase.interact (rest p) (base st) u) as [b cs].
  simpl in B. destruct B as [Bv Bc].
  apply stringy_deliverAll; [exact Bc | now split].
Qed.

Lemma stringy_run (es : list Event) (st : State) :
  contexts_are_strings es = true -> stringy st ->
  stringy (fst (run p st es))
  /\ forallb hands_a_string (snd (run p st es)) = true.
Proof.
  revert st. induction es as [|e es IH]; intros st Hes S; simpl;
    [now split|].
  simpl in Hes. apply andb_prop in Hes as [He Hes].
  assert (D : stringy (fst (step p st e))
              /\ forallb hands_a_string (snd (step p st e)) = true).
  { destruct e as [u|v|v]; simpl.
    - now apply stringy_interact.
    - unfold render.
      destruct (Js.strict_eqb (defaultValue st) (Js.default_to (Js.str "") v));
        [now split|].
      apply stringy_useSearchBarState. exact S.
    - split; [|reflexivity]. now apply stringy_setTerm. }
  destruct (step p st e) as [st1 out1]. destruct D as [S1 O1].
  specialize (IH st1 Hes S1). destruct (run p st1 es) as [st2 out2].
  simpl in *. destruct IH as [S2 O2]. split; [exact S2|].
  rewrite forallb_app. now rewrite O1, O2.
Qed.

Lemma stringy_mount (v term0 : Js.value) (t : N) :
  is_string term0 = true ->
  stringy (fst (mount p v term0 t))
  /\ forallb hands_a_string (snd (mount p v term0 t)) = true.
Proof.
  intro H.
  assert (B : is_string
                (SearchBarBase.value (SearchBarBase.mount (rest p) term0 t))
              = true) by (rewrite mount_state; exact H).
  unfold mount. apply stringy_useSearchBarState.
  split; [exact H | exact B].
Qed.

End InputMore.

(** X6. Under a context whose term is a string, and stays one when others set
    it, [SearchBarInput] deals in strings only, whatever [value] prop it is
    given or left without: the term, the local value of its [SearchBarBase]
    and every value handed to [onChange] or [setTerm] are strings, never
    [undefined]. *)
Theorem SearchBarInput_deals_in_strings
  (p : SearchBarInput.Props) (v term0 : Js.value) (t : N)
  (es : list SearchBarInput.Event) :
  is_string term0 = true ->
  contexts_are_strings es = true ->
  let m := SearchBarInput.mount p v term0 t in
  let r := SearchBarInput.run p (fst m) es in
  is_string (SearchBarInput.term (fst r)) = true
  /\ is_string (SearchBarBase.value (SearchBarInput.base (fst r))) = true
  /\ forallb hands_a_string (snd m ++ snd r) = true.
Proof.
  intros H0 Hes m r.
  destruct (stringy_mount p v term0 t H0) as [Sm Om].
  destruct (stringy_run p es (fst m) Hes Sm) as [[St Sb] Or].
  repeat split; [exact St | exact Sb |].
  rewrite forallb_app. subst m r. now rewrite Om, Or.
Qed.

Lemma SearchBarInput_deals_in_strings_witness :
  forallb hands_a_string
    (snd (SearchBarInput.mount SearchBarInput.bare Js.undefined (Js.str "") 0)
       ++ snd (SearchBarInput.run SearchBarInput.bare
                 (fst (SearchBarInput.mount SearchBarInput.bare
                         Js.undefined (Js.str "") 0))
                 [SearchBarInput.Input (Elapse 200);
                  SearchBarInput.Context (Js.str "dogs");
                  SearchBarInput.Input ClickClear]))
  = true.
Proof.
  destruct (SearchBarInput_deals_in_strings
              SearchBarInput.bare Js.undefined (Js.str "") 0
              [SearchBarInput.Input (Elapse 200);
               SearchBarInput.Context (Js.str "dogs");
               SearchBarInput.Input ClickClear]) as (_ & _ & H).
  - reflexivity.
  - reflexivity.
  - exact H.
Defined.

(** X7. Without a callback of the caller, a text that was typed ends in the
    shared context: the quiet after the edit calls [setTerm] once, with the
    text; the term and the input then hold it, and the write does not arm
    the timer again, so that term and input do not feed each other. *)
Theorem typed_text_reaches_the_context
  (p : SearchBarInput.Props) (st : SearchBarInput.State) (T : string)
  (quiet : N) :
  SearchBarInput.onChange p = false ->
  SearchBarBase.value (SearchBarInput.base st) <> Js.str T ->
  SearchBarBase.ms (SearchBarInput.rest p) <= quiet ->
  let r := SearchBarInput.run p st
             [SearchBarInput.Input (Change T);
              SearchBarInput.Input (Elapse quiet)] in
  snd r = [SetTerm (Js.str T)]
  /\ SearchBarInput.term (fst r) = Js.str T
  /\ SearchBarBase.value (SearchBarInput.base (fst r)) = Js.str T
  /\ SearchBarBase.timeout (SearchBarInput.base (fst r)) = None.
Proof.
  intros Hp Hv Hq r. subst r. simpl.
  unfold SearchBarInput.interact. simpl.
  unfold SearchBarBase.handleChange.
  rewrite setValue_changed by exact Hv. simpl.
  erewrite elapse_due; [|reflexivity|simpl; lia]. simpl.
  unfold SearchBarInput.handleChange. rewrite Hp. simpl.
  unfold SearchBarInput.setTerm. simpl.
  match goal with
  | |- context [SearchBarBase.render ?q (Js.str T) ?b] =>
      change (SearchBarBase.render q (Js.str T) b)
        with (SearchBarBase.render q (SearchBarBase.value b) b);
      rewrite (render_with_the_local_value q b)
  end.
  simpl. repeat split.
Qed.

Lemma typed_text_reaches_the_context_witness :
  snd (SearchBarInput.run SearchBarInput.bare
         (fst (SearchBarInput.mount SearchBarInput.bare
                 Js.undefined (Js.str "") 0))
         [SearchBarInput.Input (Change "dogs");
          SearchBarInput.Input (Elapse 200)])
  = [SetTerm (Js.str "dogs")].
Proof.
  destruct (typed_text_reaches_the_context
              SearchBarInput.bare
              (fst (SearchBarInput.mount SearchBarInput.bare
                      Js.undefined (Js.str "") 0))
              "dogs" 200) as (C & _).
  - reflexivity.
  - vm_compute. discriminate.
  - vm_compute. discriminate.
  - exact C.
Defined.

(** X8. Where the term of the context is not empty, the "Clear" button of a
    [SearchBarInput] without a callback does clear: at any point of a run
    from the mount, the click calls [setTerm('')], and the term and the
    input are empty at once. *)
Theorem clear_empties_a_term_that_is_set
  (p : SearchBarInput.Props) (v term0 : Js.value) (t : N)
  (es : list SearchBarInput.Event) :
  let st := fst (SearchBarInput.run p
                   (fst (SearchBarInput.mount p v term0 t)) es) in
  let r := SearchBarInput.step p st (SearchBarInput.Input ClickClear) in
  SearchBarInput.onChange p = false ->
  SearchBarBase.hasClearButton (SearchBarInput.rest p) = true ->
  SearchBarInput.term st <> Js.str "" ->
  snd r = [SetTerm (Js.str "")]
  /\ SearchBarInput.term (fst r) = Js.str ""
  /\ SearchBarBase.value (SearchBarInput.base (fst r)) = Js.str "".
Proof.
  intros st r Hp Hc Ht.
  assert (L : linked st) by (apply linked_run, linked_mount).
  subst r. simpl. unfold SearchBarInput.interact. simpl. rewrite Hc. simpl.
  unfold SearchBarInput.handleChange. rewrite Hp. simpl.
  repeat split. apply value_render. unfold linked in L. congruence.
Qed.

Lemma clear_empties_a_term_that_is_set_witness :
  SearchBarInput.step SearchBarInput.bare
    (fst (SearchBarInput.run SearchBarInput.bare
            (fst (SearchBarInput.mount SearchBarInput.bare
                    (Js.str "dogs") (Js.str "") 0))
            [SearchBarInput.Input (Elapse 200)]))
    (SearchBarInput.Input ClickClear)
  = ({| SearchBarInput.term := Js.str "";
        SearchBarInput.defaultValue := Js.str "dogs";
        SearchBarInput.base :=
          {| SearchBarBase.value := Js.str "";
             SearchBarBase.defaultValue := Js.str "";
             SearchBarBase.timeout := Some 400;
             SearchBarBase.now := 200 |} |},
     [SetTerm (Js.str "")]).
Proof.
  pose proof (clear_empties_a_term_that_is_set
                SearchBarInput.bare (Js.str "dogs") (Js.str "") 0
                [SearchBarInput.Input (Elapse 200)]) as H.
  simpl in H. destruct H as (C & _).
  - reflexivity.
  - reflexivity.
  - vm_compute. discriminate.
  - reflexivity.
Defined.

(** X9. A truthy default value takes the place of the term that the context
    had: after the mount of [SearchBarInput], and of
    [SearchBarAutocomplete], the term of the context and the local value of
    the [SearchBarBase] below, which is the [value] prop that it gives to
    [InputBase], are the default value, and the timer is armed to commit
    it.  What the input element of [SearchBarAutocomplete] shows is not
    stated. *)
Theorem truthy_default_value_replaces_the_term
  (p : SearchBarInput.Props) (a : SearchBarAutocomplete.Props)
  (v term0 : Js.value) (t : N) :
  Js.truthy v = true ->
  SearchBarInput.mount p v term0 t
  = ({| SearchBarInput.term := v;
        SearchBarInput.defaultValue := v;
        SearchBarInput.base :=
          {| SearchBarBase.value := v;
             SearchBarBase.defaultValue := v;
             SearchBarBase.timeout :=
               Some (t + SearchBarBase.ms (SearchBarInput.rest p));
             SearchBarBase.now := t |} |},
     [SetTerm v])
  /\ fst (SearchBarAutocomplete.mount a v term0 t)
     = {| SearchBarAutocomplete.defaultInputValue := v;
          SearchBarAutocomplete.input :=
            {| SearchBarInput.term := v;
               SearchBarInput.defaultValue := v;
               SearchBarInput.base :=
                 {| SearchBarBase.value := v;
                    SearchBarBase.defaultValue := v;
                    SearchBarBase.timeout :=
                      Some (t + SearchBarBase.ms
                                  (SearchBarAutocomplete.restInput a));
                    SearchBarBase.now := t |} |} |}.
Proof.
  intro Hv. split; [now apply Input_mount_truthy|].
  destruct v as [|d]; [discriminate|].
  unfold SearchBarAutocomplete.mount. rewrite Input_mount_with_the_term.
  unfold SearchBarAutocomplete.useSearchBarState.
  cbn [SearchBarAutocomplete.defaultInputValue Js.String]. rewrite Hv.
  pose proof (Auto_setTerm_after_mount a d (Js.str d)
                (Js.default_to (Js.str "") term0) term0 t Hv) as S.
  cbn [SearchBarInput.rest SearchBarAutocomplete.inputProps].
  destruct (SearchBarAutocomplete.setTerm a (Js.str d) _) as [st out].
  exact S.
Qed.

Lemma truthy_default_value_replaces_the_term_witness :
  SearchBarInput.term
    (fst (SearchBarInput.mount SearchBarInput.bare
            (Js.str "dogs") (Js.str "cats") 0))
  = Js.str "dogs"
  /\ SearchBarAutocomplete.term
       (fst (SearchBarAutocomplete.mount SearchBarAutocomplete.bare
               (Js.str "dogs") (Js.str "cats") 0))
     = Js.str "dogs".
Proof.
  destruct (truthy_default_value_replaces_the_term
              SearchBarInput.bare SearchBarAutocomplete.bare
              (Js.str "dogs") (Js.str "cats") 0) as [I A].
  - reflexivity.
  - rewrite I, A. split; reflexivity.
Defined.

Section Settled.

Import SearchBarInput.
Variable p : Props.
Hypothesis no_callback : onChange p = false.

(** A write to the context keeps the input settled, when it was settled or
    when what is written is what the input holds. *)
Lemma settled_setTerm (v : Js.value) (st : State) :
  linked st ->
  settled st \/ SearchBarBase.value (base st) = v ->
  settled (setTerm p v st).
Proof.
  intros L H. unfold settled, setTerm.
  cbn [term base]. unfold SearchBarBase.render.
  destruct (Js.strict_eqb (SearchBarBase.defaultValue (base st)) v) eqn:E.
  - apply strict_eqb_eq in E. intro T. destruct H as [S|S]; [|exact S].
    rewrite (S T). unfold linked in L. congruence.
  - unfold SearchBarBase.syncDefaultValue.
    cbn [SearchBarBase.value SearchBarBase.defaultValue].
    destruct (Js.strict_eqb (SearchBarBase.value (base st)) v) eqn:V.
    + cbn [negb]. apply strict_eqb_eq in V.
      rewrite value_setValue. intros _. exact V.
    + cbn [negb]. rewrite setValue_changed
        by (cbn [SearchBarBase.value]; now apply strict_eqb_neq).
      cbn [SearchBarBase.timeout]. discriminate.
Qed.

Lemma settled_useSearchBarState (st : State) :
  linked st -> settled st -> settled (fst (useSearchBarState p st)).
Proof.
  intros L S. unfold useSearchBarState.
  destruct (Js.truthy (defaultValue st)); cbn [fst]; [|exact S].
  apply settled_setTerm; [exact L | now left].
Qed.

Lemma settled_interact (st : State) (u : Ui) :
  linked st -> settled st -> settled (fst (interact p st u)).
Proof.
  intros L S. unfold interact. destruct u as [text|key| |dt].
  - cbn [SearchBarBase.interact deliverAll fst].
    unfold settled. cbn [base term].
    unfold SearchBarBase.handleChange, SearchBarBase.setValue.
    destruct (Js.strict_eqb (SearchBarBase.value (base st)) (Js.str text));
      [exact S | discriminate].
  - cbn [SearchBarBase.interact]. unfold SearchBarBase.handleKeyDown.
    destruct (SearchBarBase.onKeyDown (rest p)),
      (SearchBarBase.onSubmit (rest p) && String.eqb key "Enter");
      cbn [app deliverAll deliver fst]; exact S.
  - cbn [SearchBarBase.interact].
    destruct (SearchBarBase.hasClearButton (rest p));
      cbn [deliverAll fst]; [|exact S].
    unfold SearchBarBase.handleClear. cbn [deliverAll deliver].
    unfold handleChange. rewrite no_callback. cbn [fst].
    apply settled_setTerm; [|left]; assumption.
  - cbn [SearchBarBase.interact]. unfold SearchBarBase.elapse.
    destruct (SearchBarBase.timeout (base st)) as [due|] eqn:T.
    + destruct (due <=? SearchBarBase.now (base st) + dt).
      * cbn [deliverAll deliver]. unfold handleChange. rewrite no_callback.
        cbn [fst]. apply settled_setTerm; [exact L | now right].
      * cbn [deliverAll fst]. unfold settled. cbn [base SearchBarBase.timeout].
        discriminate.
    + cbn [deliverAll fst]. unfold settled.
      cbn [base term SearchBarBase.timeout SearchBarBase.value].
      intros _. now apply S.
Qed.

Lemma settled_step (st : State) (e : Event) :
  linked st -> settled st -> settled (fst (step p st e)).
Proof.
  intros L S. destruct e as [u|v|v]; cbn [step].
  - now apply settled_interact.
  - unfold render.
    destruct (Js.strict_eqb (defaultValue st) (Js.default_to (Js.str "") v));
      [exact S|].
    now apply settled_useSearchBarState.
  - cbn [fst]. apply settled_setTerm; [exact L | now left].
Qed.

Lemma settled_run (es : list Event) (st : State) :
  linked st -> settled st -> settled (fst (run p st es)).
Proof.
  revert st. induction es as [|e es IH]; intros st L S; simpl; [exact S|].
  pose proof (linked_step p st e L) as L1.
  pose proof (settled_step st e L S) as S1.
  destruct (step p st e) as [st1 out1]. specialize (IH st1 L1 S1).
  now destruct (run p st1 es).
Qed.

Lemma settled_mount (v term0 : Js.value) (t : N) :
  settled (fst (mount p v term0 t)).
Proof.
  unfold mount. apply settled_useSearchBarState.
  - unfold linked. cbn [base term]. apply defaultValue_mount.
  - unfold settled. cbn [base]. rewrite mount_state. discriminate.
Qed.

End Settled.

(** X10. Without a callback of the caller, an idle [SearchBarInput] shows the
    term: at any point of any run from the mount, whatever was typed,
    clicked, rendered or set by others, when no timer is pending the local
    value of the input is the term of the context. *)
Theorem idle_SearchBarInput_shows_the_term
  (p : SearchBarInput.Props) (v term0 : Js.value) (t : N)
  (es : list SearchBarInput.Event) :
  let st := fst (SearchBarInput.run p
                   (fst (SearchBarInput.mount p v term0 t)) es) in
  SearchBarInput.onChange p = false ->
  SearchBarBase.timeout (SearchBarInput.base st) = None ->
  SearchBarBase.value (SearchBarInput.base st) = SearchBarInput.term st.
Proof.
  intros st Hp. subst st.
  apply (settled_run p Hp); [apply linked_mount | now apply settled_mount].
Qed.

Lemma idle_SearchBarInput_shows_the_term_witness :
  SearchBarBase.value
    (SearchBarInput.base
       (fst (SearchBarInput.run SearchBarInput.bare
               (fst (SearchBarInput.mount SearchBarInput.bare
                       Js.undefined (Js.str "") 0))
               [SearchBarInput.Input (Change "dogs");
                SearchBarInput.Context (Js.str "cats");
                SearchBarInput.Input (Elapse 300)])))
  = SearchBarInput.term
      (fst (SearchBarInput.run SearchBarInput.bare
              (fst (SearchBarInput.mount SearchBarInput.bare
                      Js.undefined (Js.str "") 0))
              [SearchBarInput.Input (Change "dogs");
               SearchBarInput.Context (Js.str "cats");
               SearchBarInput.Input (Elapse 300)])).
Proof.
  apply (idle_SearchBarInput_shows_the_term
           SearchBarInput.bare Js.undefined (Js.str "") 0
           [SearchBarInput.Input (Change "dogs");
            SearchBarInput.Context (Js.str "cats");
            SearchBarInput.Input (Elapse 300)]).
  - reflexivity.
  - reflexivity.
Defined.

(** With a callback this fails: the term stays behind the input. *)
Example with_a_callback_the_term_stays_behind :
  SearchBarInput.run SearchBarInput.with_onChange
    (fst (SearchBarInput.mount SearchBarInput.with_onChange
            Js.undefined (Js.str "") 0))
    [SearchBarInput.Input (Change "dogs"); SearchBarInput.Input (Elapse 200)]
  = ({| SearchBarInput.term := Js.str "";
        SearchBarInput.defaultValue := Js.str "";
        SearchBarInput.base :=
          {| SearchBarBase.value := Js.str "dogs";
             SearchBarBase.defaultValue := Js.str "";
             SearchBarBase.timeout := None;
             SearchBarBase.now := 200 |} |},
     [OnChange (Js.str "dogs")]).
Proof. reflexivity. Qed.

(** X11. Without a callback of the caller, a text typed into a
    [SearchBarAutocomplete] ends in the shared context too.  The quiet
    after the edit calls [setTerm] with the text; the [SearchBarInput]
    inside, rendered with the new term as its [value], writes the same text
    once more when that text is not empty and is not the [value] it had
    before.  The term and the input then hold the text and no timer is
    pending. *)
Theorem SearchBarAutocomplete_writes_typed_text_to_the_context
  (a : SearchBarAutocomplete.Props) (sa : SearchBarAutocomplete.State)
  (T : string) (quiet : N) :
  SearchBarAutocomplete.onInputChange a = false ->
  SearchBarBase.value (SearchBarInput.base (SearchBarAutocomplete.input sa))
    <> Js.str T ->
  SearchBarBase.ms (SearchBarAutocomplete.restInput a) <= quiet ->
  SearchBarAutocomplete.run a sa
    [SearchBarAutocomplete.Input (Change T);
     SearchBarAutocomplete.Input (Elapse quiet)]
  = ({| SearchBarAutocomplete.defaultInputValue :=
          SearchBarAutocomplete.defaultInputValue sa;
        SearchBarAutocomplete.input :=
          {| SearchBarInput.term := Js.str T;
             SearchBarInput.defaultValue := Js.str T;
             SearchBarInput.base :=
               {| SearchBarBase.value := Js.str T;
                  SearchBarBase.defaultValue := Js.str T;
                  SearchBarBase.timeout := None;
                  SearchBarBase.now :=
                    SearchBarBase.now
                      (SearchBarInput.base (SearchBarAutocomplete.input sa))
                    + quiet |} |} |},
     SetTerm (Js.str T)
       :: (if Js.strict_eqb
                (SearchBarInput.defaultValue (SearchBarAutocomplete.input sa))
                (Js.str T)
              || negb (Js.truthy (Js.str T))
           then [] else [SetTerm (Js.str T)])).
Proof.
  intros Ha Hv Hq.
  cbn [SearchBarAutocomplete.run SearchBarAutocomplete.step].
  unfold SearchBarAutocomplete.interact at 1.
  unfold SearchBarInput.interact at 1.
  cbn [SearchBarBase.interact SearchBarInput.deliverAll
       SearchBarAutocomplete.deliverAll SearchBarInput.rest
       SearchBarAutocomplete.inputProps SearchBarInput.base
       SearchBarInput.term SearchBarInput.defaultValue].
  unfold SearchBarBase.handleChange. rewrite setValue_changed by exact Hv.
  unfold SearchBarAutocomplete.interact, SearchBarInput.interact.
  cbn [SearchBarBase.interact SearchBarInput.rest
       SearchBarAutocomplete.inputProps SearchBarInput.base
       SearchBarAutocomplete.input
       SearchBarInput.term SearchBarInput.defaultValue].
  erewrite elapse_due;
    [|reflexivity|cbn [SearchBarBase.now]; lia].
  cbn [SearchBarInput.deliverAll SearchBarInput.deliver
       SearchBarBase.value SearchBarBase.defaultValue SearchBarBase.now].
  unfold SearchBarInput.handleChange.
  cbn [SearchBarInput.onChange SearchBarAutocomplete.inputProps app
       SearchBarAutocomplete.deliverAll SearchBarAutocomplete.deliver].
  unfold SearchBarAutocomplete.handleInputChange. rewrite Ha.
  unfold SearchBarAutocomplete.setTerm, SearchBarInput.setTerm.
  cbn [SearchBarAutocomplete.input SearchBarAutocomplete.defaultInputValue
       SearchBarInput.base SearchBarInput.defaultValue SearchBarInput.rest
       SearchBarAutocomplete.inputProps].
  match goal with
  | |- context [SearchBarBase.render ?q (Js.str T) ?b] =>
      change (SearchBarBase.render q (Js.str T) b)
        with (SearchBarBase.render q (SearchBarBase.value b) b);
      rewrite (render_with_the_local_value q b)
  end.
  cbn [SearchBarBase.value SearchBarBase.timeout SearchBarBase.now].
  unfold SearchBarInput.render.
  cbn [SearchBarInput.defaultValue SearchBarInput.term SearchBarInput.base
       Js.default_to].
  destruct (Js.strict_eqb
              (SearchBarInput.defaultValue (SearchBarAutocomplete.input sa))
              (Js.str T)) eqn:E.
  - apply strict_eqb_eq in E. rewrite E. reflexivity.
  - unfold SearchBarInput.useSearchBarState.
    cbn [SearchBarInput.defaultValue Js.String orb].
    destruct (Js.truthy (Js.str T)) eqn:Tr.
    + unfold SearchBarInput.setTerm.
      cbn [SearchBarInput.defaultValue SearchBarInput.base SearchBarInput.rest
           SearchBarAutocomplete.inputProps negb].
      unfold SearchBarBase.render. cbn [SearchBarBase.defaultValue].
      rewrite strict_eqb_refl. reflexivity.
    + reflexivity.
Qed.

Lemma SearchBarAutocomplete_writes_typed_text_to_the_context_witness :
  SearchBarAutocomplete.run SearchBarAutocomplete.bare
    (fst (SearchBarAutocomplete.mount SearchBarAutocomplete.bare
            Js.undefined (Js.str "") 0))
    [SearchBarAutocomplete.Input (Change "dogs");
     SearchBarAutocomplete.Input (Elapse 200)]
  = ({| SearchBarAutocomplete.defaultInputValue := Js.undefined;
        SearchBarAutocomplete.input :=
          {| SearchBarInput.term := Js.str "dogs";
             SearchBarInput.defaultValue := Js.str "dogs";
             SearchBarInput.base :=
               {| SearchBarBase.value := Js.str "dogs";
                  SearchBarBase.defaultValue := Js.str "dogs";
                  SearchBarBase.timeout := None;
                  SearchBarBase.now := 200 |} |} |},
     [SetTerm (Js.str "dogs"); SetTerm (Js.str "dogs")]).
Proof.
  apply (SearchBarAutocomplete_writes_typed_text_to_the_context
           SearchBarAutocomplete.bare
           (fst (SearchBarAutocomplete.mount SearchBarAutocomplete.bare
                   Js.undefined (Js.str "") 0))
           "dogs" 200).
  - reflexivity.
  - vm_compute. discriminate.
  - vm_compute. discriminate.
Defined.

(** * What is rendered *)

Lemma get_spread (k : string) (a b : Jsx.Obj) :
  Jsx.get k (Jsx.spread a b)
  = match Jsx.get k b with
    | Some x => Some x
    | None => Jsx.get k a
    end.
Proof.
  unfold Jsx.spread. induction b as [|[k' x] b IH]; simpl; [reflexivity|].
  now destruct (String.eqb k k').
Qed.

Lemma get_omit_taken (k : string) (ks : list string) (o : Jsx.Obj) :
  In k ks -> Jsx.get k (Jsx.omit ks o) = None.
Proof.
  intro H. induction o as [|[k' x] o IH]; simpl; [reflexivity|].
  destruct (existsb (String.eqb k') ks) eqn:E; simpl; [exact IH|].
  destruct (String.eqb_spec k k') as [->|N]; [|exact IH].
  assert (X : existsb (String.eqb k') ks = true).
  { apply existsb_exists. exists k'. split; [exact H | apply String.eqb_refl]. }
  congruence.
Qed.

Lemma get_omit_left (k : string) (ks : list string) (o : Jsx.Obj) :
  ~ In k ks -> Jsx.get k (Jsx.omit ks o) = Jsx.get k o.
Proof.
  intro H. induction o as [|[k' x] o IH]; simpl; [reflexivity|].
  destruct (String.eqb_spec k k') as [->|N].
  - assert (X : existsb (String.eqb k') ks = false).
    { destruct (existsb (String.eqb k') ks) eqn:E; [|reflexivity].
      apply existsb_exists in E as (y & Hy & Ey).
      apply String.eqb_eq in Ey. subst y. contradiction. }
    rewrite X. simpl. now rewrite String.eqb_refl.
  - destruct (existsb (String.eqb k') ks); simpl; [exact IH|].
    destruct (String.eqb_spec k k'); [contradiction | exact IH].
Qed.

(** X12. No prop of the caller takes the place of what the component itself
    gives to [InputBase] under the names it destructures: whatever the
    props object, the input shows the local value, its change and key
    events go to [handleChange] and [handleKeyDown], and the end adornment,
    the [inputProps] and [fullWidth] are the ones the component worked
    out. *)
Theorem destructured_props_are_not_overridden
  (p : SearchBarBase.Props) (s : SearchBarBase.State) (fullWidth : option bool)
  (defaultInputProps : option Jsx.Obj) (defaultEndAdornment : Jsx.Attr)
  (all : Jsx.Obj) :
  let rendered :=
    SearchBarBase.inputBase p s fullWidth defaultInputProps
      defaultEndAdornment all in
  Jsx.get "value" rendered = Some (Jsx.Value (SearchBarBase.value s))
  /\ Jsx.get "onChange" rendered = Some (Jsx.Fn Jsx.HandleChange)
  /\ Jsx.get "onKeyDown" rendered = Some (Jsx.Fn Jsx.HandleKeyDown)
  /\ Jsx.get "endAdornment" rendered
     = Some (SearchBarBase.endAdornment p defaultEndAdornment)
  /\ Jsx.get "inputProps" rendered
     = Some (Jsx.Object (SearchBarBase.inputProps defaultInputProps))
  /\ Jsx.get "fullWidth" rendered
     = Some (Jsx.Flag (match fullWidth with Some b => b | None => true end)).
Proof.
  intro rendered. subst rendered. unfold SearchBarBase.inputBase.
  repeat split; rewrite get_spread, get_omit_taken;
    solve [reflexivity | unfold SearchBarBase.destructured; simpl; tauto].
Qed.

(** X13. A prop of the caller under any other name reaches [InputBase] as it
    is, in the place of what the component set under that name.  So a
    [placeholder] of the caller replaces "Search in ...", and an [onClear]
    is handed to [InputBase] as a prop. *)
Theorem other_props_reach_InputBase
  (p : SearchBarBase.Props) (s : SearchBarBase.State) (fullWidth : option bool)
  (defaultInputProps : option Jsx.Obj) (defaultEndAdornment : Jsx.Attr)
  (all : Jsx.Obj) (k : string) (x : Jsx.Attr) :
  ~ In k SearchBarBase.destructured ->
  Jsx.get k all = Some x ->
  Jsx.get k
    (SearchBarBase.inputBase p s fullWidth defaultInputProps
       defaultEndAdornment all)
  = Some x.
Proof.
  intros N H. unfold SearchBarBase.inputBase.
  rewrite get_spread, get_omit_left by exact N. now rewrite H.
Qed.

Lemma other_props_reach_InputBase_witness :
  Jsx.get "placeholder"
    (SearchBarBase.inputBase SearchBarBase.in_acme
       (SearchBarBase.mount SearchBarBase.in_acme (Js.str "") 0)
       None None (Jsx.Value Js.undefined)
       [("onClear"%string, Jsx.Fn (Jsx.Of "g"));
        ("placeholder"%string, Jsx.Value (Js.str "Find"))])
  = Some (Jsx.Value (Js.str "Find")).
Proof.
  apply (other_props_reach_InputBase
           SearchBarBase.in_acme
           (SearchBarBase.mount SearchBarBase.in_acme (Js.str "") 0)
           None None (Jsx.Value Js.undefined)
           [("onClear"%string, Jsx.Fn (Jsx.Of "g"));
            ("placeholder"%string, Jsx.Value (Js.str "Find"))]
           "placeholder" (Jsx.Value (Js.str "Find"))).
  - vm_compute. intuition discriminate.
  - reflexivity.
Defined.

(** Without such a prop the names that the component sets keep what it
    set: the placeholder it built, the test id, the "Query" button. *)
Lemma props_of_the_component
  (p : SearchBarBase.Props) (s : SearchBarBase.State) (fullWidth : option bool)
  (defaultInputProps : option Jsx.Obj) (defaultEndAdornment : Jsx.Attr)
  (all : Jsx.Obj) :
  Jsx.get "placeholder" all = None ->
  Jsx.get "placeholder"
    (SearchBarBase.inputBase p s fullWidth defaultInputProps
       defaultEndAdornment all)
  = Some (Jsx.Value (Js.str (SearchBarBase.placeholder p))).
Proof.
  intro H. unfold SearchBarBase.inputBase.
  rewrite get_spread, get_omit_left, H; [reflexivity|].
  unfold SearchBarBase.destructured. simpl. intuition discriminate.
Qed.

(** X14. The loading indicator of [SearchBarAutocomplete] is shown only when the
    caller turned the "Clear" button off: with [clearButton] left out or
    [true] the input ends with the "Clear" button, loading or not. *)
Theorem loading_indicator_needs_clearButton_off
  (a : SearchBarAutocomplete.Props) (loading : option bool)
  (inputEndAdornment : Jsx.Attr) :
  inputEndAdornment <> Jsx.Node Jsx.Progress ->
  (SearchBarAutocomplete.shownEndAdornment a loading inputEndAdornment
   = Jsx.Node Jsx.Progress
   <-> loading = Some true
       /\ SearchBarBase.clearButton (SearchBarAutocomplete.restInput a)
          = Some false)
  /\ (SearchBarBase.clearButton (SearchBarAutocomplete.restInput a) <> Some false ->
      SearchBarAutocomplete.shownEndAdornment a loading inputEndAdornment
      = Jsx.Node Jsx.ClearIcon).
Proof.
  intro H.
  unfold SearchBarAutocomplete.shownEndAdornment, SearchBarBase.endAdornment,
    SearchBarBase.hasClearButton, SearchBarAutocomplete.endAdornment.
  destruct (SearchBarBase.clearButton (SearchBarAutocomplete.restInput a))
    as [[|]|]; destruct loading as [[|]|]; split;
    try (intros; reflexivity); try (intro N; exfalso; now apply N);
    split; intro E; try discriminate; try (destruct E; discriminate);
    try contradiction; try (split; reflexivity).
Qed.

Lemma loading_indicator_needs_clearButton_off_witness :
  SearchBarAutocomplete.shownEndAdornment SearchBarAutocomplete.bare
    (Some true) (Jsx.Value Js.undefined)
  = Jsx.Node Jsx.ClearIcon.
Proof.
  destruct (loading_indicator_needs_clearButton_off
              SearchBarAutocomplete.bare (Some true) (Jsx.Value Js.undefined))
    as [_ C].
  - discriminate.
  - apply C. discriminate.
Defined.
